(** * Verification of [java/kotlin-extractor/build.py]

    A shallow embedding of the Kotlin extractor build script: Python
    strings are [string], the file system is a finite map from paths to
    nodes, and the script's effects (file system, the two output streams,
    child processes, exceptions and [sys.exit]) are threaded through a small
    state-and-error monad. *)

From Stdlib Require Import ZArith Ascii.
From stdpp Require Import gmap strings list fin_maps.

Local Open Scope Z_scope.

(** ** Python strings *)

Module Str.

Definition nl : string := String (ascii_of_nat 10) "".
Definition dquote : string := String (ascii_of_nat 34) "".

Fixpoint drop (n : nat) (s : string) : string :=
  match n, s with
  | O, _ => s
  | S n', String _ s' => drop n' s'
  | S _, EmptyString => EmptyString
  end.

(** [s.startswith(p)] *)
Fixpoint startswith (s p : string) {struct p} : bool :=
  match p, s with
  | EmptyString, _ => true
  | String a p', String b s' => if decide (a = b) then startswith s' p' else false
  | String _ _, EmptyString => false
  end.

(** [sub in s] *)
Fixpoint contains (sub s : string) : bool :=
  startswith s sub ||
  match s with
  | EmptyString => false
  | String _ s' => contains sub s'
  end.

(** [s.endswith(p)] *)
Definition endswith (s p : string) : bool :=
  startswith (String.rev s) (String.rev p).

(** [s.replace(old, new)] scans left to right and replaces the
    non-overlapping occurrences of [old].  [skip] counts the characters of a
    matched occurrence that are still to be dropped. *)
Fixpoint replace_from (old new : string) (skip : nat) (s : string) : string :=
  match s with
  | EmptyString => EmptyString
  | String c s' =>
      match skip with
      | S k => replace_from old new k s'
      | O =>
          if startswith s old
          then new +:+ replace_from old new (String.length old - 1) s'
          else String c (replace_from old new O s')
      end
  end.

(** With an empty [old] Python inserts [new] before every character and at
    the end. *)
Fixpoint intersperse (new s : string) : string :=
  match s with
  | EmptyString => new
  | String c s' => new +:+ String c (intersperse new s')
  end.

Definition replace (s old new : string) : string :=
  match old with
  | EmptyString => intersperse new s
  | String _ _ => replace_from old new O s
  end.

(** [sep.join(l)] *)
Fixpoint join (sep : string) (l : list string) : string :=
  match l with
  | [] => ""
  | [x] => x
  | x :: l' => x +:+ sep +:+ join sep l'
  end.

Fixpoint concat (l : list string) : string :=
  match l with
  | [] => ""
  | x :: l' => x +:+ concat l'
  end.

Fixpoint forallb (f : ascii → bool) (s : string) : bool :=
  match s with
  | EmptyString => true
  | String c s' => f c && forallb f s'
  end.

End Str.

(** ** Text files *)

(** The script opens its files in text mode.  With universal newlines,
    reading turns [\r\n] and a lone [\r] into [\n]; writing turns [\n] into
    [os.linesep].  A string stands for the bytes of a text in the encoding
    of the platform, which is taken to agree with ASCII on the characters of
    the script; reading a file whose bytes do not decode raises
    [UnicodeDecodeError]. *)
Definition lf : ascii := ascii_of_nat 10.
Definition cr : ascii := ascii_of_nat 13.

Fixpoint read_newlines (s : string) : string :=
  match s with
  | EmptyString => EmptyString
  | String c s' =>
      if decide (c = cr) then
        match s' with
        | String c' s'' =>
            if decide (c' = lf) then String lf (read_newlines s'')
            else String lf (read_newlines s')
        | EmptyString => String lf EmptyString
        end
      else String c (read_newlines s')
  end.

Fixpoint write_newlines (linesep s : string) : string :=
  match s with
  | EmptyString => EmptyString
  | String c s' =>
      (if decide (c = lf) then linesep else String c EmptyString)
      +:+ write_newlines linesep s'
  end.

(** ** [shlex] *)

(** The characters [shlex.quote] leaves alone: [[a-zA-Z0-9_@%+=:,./-]]. *)
Definition shlex_safe (c : ascii) : bool :=
  let n := nat_of_ascii c in
  ((97 <=? n) && (n <=? 122))%nat || ((65 <=? n) && (n <=? 90))%nat ||
  ((48 <=? n) && (n <=? 57))%nat ||
  Str.contains (String c "") "_@%+=:,./-".

Definition shlex_quote (s : string) : string :=
  if decide (s = "") then "''"
  else if Str.forallb shlex_safe s then s
  else "'" +:+ Str.replace s "'" ("'" +:+ Str.dquote +:+ "'" +:+ Str.dquote +:+ "'") +:+ "'".

Definition shlex_join (cmd : list string) : string :=
  Str.join " " (shlex_quote <$> cmd).

(** ** Paths and the file system *)

(** A path string is read as its list of components, split at [/]; empty
    components and [.] are dropped.  A component [..] is not resolved, nor
    is a backslash taken for a separator as Windows does: two spellings of
    one location are two keys of the map.  The paths the script builds from
    fixed names are plain; a version string reaches the name of a build
    directory as it is, and a property that depends on where a build
    directory lies asks for a [plain_name]. *)
Fixpoint components (s : string) : list string :=
  match s with
  | EmptyString => [""]
  | String c s' =>
      if decide (c = "/"%char) then "" :: components s'
      else match components s' with
           | [] => [String c ""]
           | x :: xs => String c x :: xs
           end
  end.

Definition keep_component (x : string) : bool :=
  bool_decide (x ≠ "" ∧ x ≠ ".").

Definition parse_path (s : string) : list string :=
  List.filter keep_component (components s).

(** What lies at a path: a regular file or a directory.  Symbolic links
    and other kinds of files are not modelled. *)
Inductive node := File (content : string) | Dir.

Global Instance node_eq_dec : EqDecision node.
Proof. solve_decision. Defined.

Definition is_dir (n : option node) : bool :=
  match n with Some Dir => true | _ => false end.

Definition is_file (n : option node) : bool :=
  match n with Some (File _) => true | _ => false end.

(** The node at a path; the empty path is the working directory. *)
Definition node_at (m : gmap (list string) node) (p : list string) : option node :=
  match p with
  | [] => Some Dir
  | _ => m !! p
  end.

(** The proper ancestors of [p] and [p] itself, the working directory
    excluded. *)
Definition dir_chain (p : list string) : list (list string) :=
  (λ n, take n p) <$> seq 1 (length p).

(** What a command handed to [subprocess.run] is: an argument vector, or on
    Windows one command line. *)
Inductive command := Argv (argv : list string) | Shell (line : string).

Inductive exn :=
| Exception (msg : string)
| CalledProcessError (cmd : command) (returncode : Z) (captured : option (string * string))
| FileNotFoundError (p : string)
| FileExistsError (p : string)
| NotADirectoryError (p : string)
| IsADirectoryError (p : string)
| UnicodeDecodeError (p : string)
| ShutilError (failed : list (list string)).

(** What the operating system answers to a command: the executable is
    missing, or the child ran, wrote what it wrote and exited. *)
Inductive exec_result :=
| NoSuchProgram
| Exited (returncode : Z) (out err : string) (after : gmap (list string) node).

(** One child process that ran: the arguments [run_process] was called with,
    the command the system received and the exit status. *)
Record event := Event { ev_argv : list string; ev_cmd : command; ev_status : Z }.

Record world := World {
  fs : gmap (list string) node;
  stdout : list string;
  stderr : list string;
  procs : list event
}.

Definition set_fs (f : gmap (list string) node → gmap (list string) node) (w : world) : world :=
  World (f (fs w)) (stdout w) (stderr w) (procs w).

Inductive outcome (A : Type) :=
| Ok (a : A)
| Raise (e : exn)
| Exit (code : Z).
Arguments Ok {A} a.
Arguments Raise {A} e.
Arguments Exit {A} code.

Definition M (A : Type) : Type := world → outcome A * world.

Global Instance M_ret : MRet M := λ A a w, (Ok a, w).

Global Instance M_bind : MBind M := λ A B f m w,
  match m w with
  | (Ok a, w') => f a w'
  | (Raise e, w') => (Raise e, w')
  | (Exit c, w') => (Exit c, w')
  end.

Definition raise {A} (e : exn) : M A := λ w, (Raise e, w).

Definition sys_exit {A} (code : Z) : M A := λ w, (Exit code, w).

(** [try: body except E as e: handler]; [handler e = None] when [e] is not
    an instance of [E]. *)
Definition try_except {A} (body : M A) (handler : exn → option (M A)) : M A := λ w,
  match body w with
  | (Raise e, w') =>
      match handler e with
      | Some h => h w'
      | None => (Raise e, w')
      end
  | r => r
  end.

Fixpoint for_each {A} (l : list A) (body : A → M unit) : M unit :=
  match l with
  | [] => mret tt
  | x :: l' => body x ;; for_each l' body
  end.

Fixpoint map_M {A B} (f : A → M B) (l : list A) : M (list B) :=
  match l with
  | [] => mret []
  | x :: l' => y ← f x; ys ← map_M f l'; mret (y :: ys)
  end.

Definition print (s : string) : M unit := λ w,
  (Ok tt, World (fs w) (stdout w ++ [s]) (stderr w) (procs w)).

Definition eprint (s : string) : M unit := λ w,
  (Ok tt, World (fs w) (stdout w) (stderr w ++ [s]) (procs w)).

(** *** File-system primitives *)

Definition os_path_exists (p : string) : M bool := λ w,
  (Ok (bool_decide (is_Some (node_at (fs w) (parse_path p)))), w).

Definition os_path_isfile (p : string) : M bool := λ w,
  (Ok (is_file (node_at (fs w) (parse_path p))), w).

Definition remove_tree (p : list string) (m : gmap (list string) node) : gmap (list string) node :=
  filter (λ kv, ¬ p `prefix_of` kv.1) m.

Definition shutil_rmtree (p : string) : M unit := λ w,
  match node_at (fs w) (parse_path p) with
  | None => (Raise (FileNotFoundError p), w)
  | Some (File _) => (Raise (NotADirectoryError p), w)
  | Some Dir => (Ok tt, set_fs (remove_tree (parse_path p)) w)
  end.

Definition add_dirs (p : list string) (m : gmap (list string) node) : gmap (list string) node :=
  m ∪ list_to_map ((λ q, (q, Dir)) <$> dir_chain p).

(** [os.makedirs(p, exist_ok=...)] *)
Definition os_makedirs (p : string) (exist_ok : bool) : M unit := λ w,
  let q := parse_path p in
  if existsb (λ a, is_file (fs w !! a)) (dir_chain q)
  then (Raise (if is_file (node_at (fs w) q) then FileExistsError p else NotADirectoryError p), w)
  else if is_dir (node_at (fs w) q) && negb exist_ok
  then (Raise (FileExistsError p), w)
  else (Ok tt, set_fs (add_dirs q) w).

(** The entries below [src], by their path relative to [src]. *)
Definition entries_below (src : list string) (m : gmap (list string) node) : list (list string * node) :=
  omap (λ kv, if decide (src `prefix_of` kv.1 ∧ kv.1 ≠ src)
              then Some (List.skipn (length src) kv.1, kv.2) else None)
       (map_to_list m).

(** Where an entry of the source is copied to: the same place below [dst];
    but a file that meets a directory there is put into that directory under
    its own name, as [shutil.copy2] does. *)
Definition landing (m : gmap (list string) node) (dst : list string) (e : list string * node) :
    list string :=
  match e.2 with
  | File _ =>
      if is_dir (m !! (dst ++ e.1)) then dst ++ e.1 ++ option_list (last e.1)
      else dst ++ e.1
  | Dir => dst ++ e.1
  end.

(** An entry that cannot be copied: a directory that meets a file
    ([os.makedirs] raises [FileExistsError]), or a file that meets a
    directory in which its name is a directory again ([open] raises
    [IsADirectoryError]). *)
Definition stopped (m : gmap (list string) node) (dst : list string) (e : list string * node) :
    bool :=
  match e.2 with
  | Dir => is_file (m !! (dst ++ e.1))
  | File _ => is_dir (m !! (dst ++ e.1)) && is_dir (m !! landing m dst e)
  end.

Definition blocked (bad : list (list string)) (rel : list string) : bool :=
  existsb (λ b, bool_decide (b `prefix_of` rel)) bad.

(** [shutil.copytree(src, dst, dirs_exist_ok=...)]: every entry below [src]
    is copied to its [landing] place below [dst], over what is there; an
    entry that is [stopped] is skipped with all below it, and the call raises
    once the rest is copied.  Copying a tree into itself does not end in
    Python; here it raises at once. *)
Definition shutil_copytree (src dst : string) (dirs_exist_ok : bool) : M unit := λ w,
  let s := parse_path src in
  let d := parse_path dst in
  match node_at (fs w) s with
  | None => (Raise (FileNotFoundError src), w)
  | Some (File _) => (Raise (NotADirectoryError src), w)
  | Some Dir =>
      if bool_decide (s `prefix_of` d) then (Raise (ShutilError [d]), w)
      else
        match os_makedirs dst dirs_exist_ok w with
        | (Ok _, w1) =>
            let es := entries_below s (fs w) in
            let bad := fst <$> List.filter (stopped (fs w) d) es in
            let copied := List.filter (λ e, negb (blocked bad e.1)) es in
            let w2 := set_fs (λ m, list_to_map ((λ e, (landing (fs w) d e, e.2)) <$> copied)
                                   ∪ m) w1 in
            match bad with
            | [] => (Ok tt, w2)
            | _ => (Raise (ShutilError bad), w2)
            end
        | (Raise e, w1) => (Raise e, w1)
        | (Exit c, w1) => (Exit c, w1)
        end
  end.

(** [open(p, 'w')]: the file is created or emptied. *)
Definition open_w (p : string) : M unit := λ w,
  let q := parse_path p in
  match node_at (fs w) q with
  | Some Dir => (Raise (IsADirectoryError p), w)
  | _ =>
      match node_at (fs w) (removelast q) with
      | Some Dir => (Ok tt, set_fs (<[q := File ""]>) w)
      | Some (File _) => (Raise (NotADirectoryError p), w)
      | None => (Raise (FileNotFoundError p), w)
      end
  end.

Definition hidden (name : string) : bool := Str.startswith name ".".

(** [glob.glob(path + '/**/*' + ext, recursive=True)]: the entries below
    [path] whose name ends in [ext], hidden names and what lies below hidden
    directories left out. *)
Definition glob_ext (path ext : string) (m : gmap (list string) node) : list string :=
  omap (λ e, match last e.1 with
             | Some name =>
                 if List.forallb (λ c, negb (hidden c)) e.1 && Str.endswith name ext
                 then Some (path +:+ "/" +:+ Str.join "/" e.1) else None
             | None => None
             end)
       (entries_below (parse_path path) m).

(** ** The environment of a run *)

(** What the script asks of the platform it runs on. *)
Class Platform := {
  platform_system : string;
  os_pathsep : string;
  os_getcwd : string;
  shutil_which : string → option string;
  os_exec : command → gmap (list string) node → exec_result;
  decode_utf8 : string → string;
  text_decodes : string → bool
}.

(** The module [kotlin_plugin_versions], which [build.py] imports: the
    version registry. *)
Class PluginVersions := {
  Version : Type;
  version_string_to_version : string → exn + Version;
  lessThanOrEqual : Version → Version → bool;
  toString : Version → string;
  toLanguageVersionString : Version → string;
  many_versions : list string;
  many_versions_versions_asc : list Version;
  get_single_version : gmap (list string) node → exn + string
}.

(** [open(p, 'r').read()]: the content, when it decodes in the encoding of
    the platform ([text_decodes]), with universal newlines. *)
Definition read_file `{!Platform} (p : string) : M string := λ w,
  match node_at (fs w) (parse_path p) with
  | Some (File c) =>
      if text_decodes c then (Ok (read_newlines c), w)
      else (Raise (UnicodeDecodeError p), w)
  | Some Dir => (Raise (IsADirectoryError p), w)
  | None => (Raise (FileNotFoundError p), w)
  end.

(** [os.linesep]: [\r\n] on Windows, [\n] elsewhere, also under Cygwin,
    whose Python is a POSIX build. *)
Definition os_linesep `{!Platform} : string :=
  if decide (platform_system = "Windows") then String cr (String lf EmptyString)
  else String lf EmptyString.

(** [f.write(s)] on a file opened for writing in text mode at [p]. *)
Definition f_write `{!Platform} (p : string) (s : string) : M unit := λ w,
  match fs w !! parse_path p with
  | Some (File c) =>
      (Ok tt, set_fs (<[parse_path p := File (c +:+ write_newlines os_linesep s)]>) w)
  | _ => (Raise (FileNotFoundError p), w)
  end.

(** The namespace [parse_args] returns. *)
Record Namespace := {
  dependencies : string;
  many : bool;
  single_version : option string;
  single_version_embeddable : bool
}.

(** ** The script *)

Section Build.
Context `{!Platform, !PluginVersions}.

Definition is_windows : bool :=
  if decide (platform_system = "Windows") then true
  else if Str.startswith platform_system "CYGWIN" then true
  else false.

Definition quote_for_batch (arg : string) : M string :=
  if Str.contains ";" arg || Str.contains "=" arg then
    if Str.contains Str.dquote arg
    then raise (Exception "Need to quote something containing a quote")
    else mret (Str.dquote +:+ arg +:+ Str.dquote)
  else mret arg.

(** [subprocess.run(cmd, check=True)], with both pipes captured when
    [capture_output] is set. *)
Definition subprocess_run (argv : list string) (cmd : command) (capture_output : bool) : M unit := λ w,
  match os_exec cmd (fs w) with
  | NoSuchProgram => (Raise (FileNotFoundError (default "" (head argv))), w)
  | Exited rc out err after =>
      let w' := World after (stdout w) (stderr w) (procs w ++ [Event argv cmd rc]) in
      if decide (rc = 0) then (Ok tt, w')
      else (Raise (CalledProcessError cmd rc (if capture_output then Some (out, err) else None)), w')
  end.

Definition run_process (cmd : list string) (capture_output : bool) : M unit :=
  print ("Running command: " +:+ shlex_join cmd);;
  cmd' ← (if is_windows
          then (qs ← map_M quote_for_batch cmd;
                let line := Str.join " " qs in
                print ("Converted to Windows command: " +:+ line);;
                mret (Shell line))
          else mret (Argv cmd));
  try_except (subprocess_run cmd cmd' capture_output)
    (λ e, match e with
          | CalledProcessError _ _ captured =>
              Some (eprint ("In: " +:+ os_getcwd);;
                    let shell_cmd := match cmd' with
                                     | Shell line => line
                                     | Argv a => shlex_join a
                                     end in
                    eprint ("Command failed: " +:+ shell_cmd);;
                    (if capture_output
                     then eprint ("stdout output:" +:+ Str.nl +:+ decode_utf8 (default "" (fst <$> captured)));;
                          eprint ("stderr output:" +:+ Str.nl +:+ decode_utf8 (default "" (snd <$> captured)))
                     else mret tt);;
                    raise e)
          | _ => None
          end).

Definition write_arg_file (arg_file : string) (args : list string) : M unit :=
  open_w arg_file;;
  for_each args (λ arg,
    if Str.contains "'" arg
    then raise (Exception ("Single quote in argument: " +:+ arg))
    else f_write arg_file ("'" +:+ Str.replace arg "\" "/" +:+ "'" +:+ Str.nl)).

Section Tools.
(** The module-level names [kotlinc] and [kotlin_dependency_folder]. *)
Variable kotlinc : string.
Variable kotlin_dependency_folder : string.

Definition javac : string := "javac".

Definition compile_to_dir (build_dir : string) (srcs : list string) (version : Version)
    (classpath java_classpath output : string) : M unit :=
  let kotlin_arg_file := build_dir +:+ "/kotlin.args" in
  let kotlin_args := ["-Werror";
                      "-opt-in=kotlin.RequiresOptIn";
                      "-opt-in=org.jetbrains.kotlin.ir.symbols.IrSymbolInternals";
                      "-d"; output;
                      "-module-name"; "codeql-kotlin-extractor";
                      "-Xsuppress-version-warnings";
                      "-language-version"; toLanguageVersionString version;
                      "-no-reflect"; "-no-stdlib";
                      "-jvm-target"; "1.8";
                      "-classpath"; classpath] ++ srcs in
  write_arg_file kotlin_arg_file kotlin_args;;
  run_process [kotlinc; "-J-Xmx2G"; "@" +:+ kotlin_arg_file] false;;
  let java_arg_file := build_dir +:+ "/java.args" in
  let java_args := ["-d"; output;
                    "-source"; "8"; "-target"; "8";
                    "-classpath"; Str.join os_pathsep [output; classpath; java_classpath]]
                   ++ List.filter (λ s, Str.endswith s ".java") srcs in
  write_arg_file java_arg_file java_args;;
  run_process [javac; "@" +:+ java_arg_file] false.

Definition jar_command (output class_dir tmp_src_dir : string) : list string :=
  ["jar"; "cf"; output;
   "-C"; class_dir; ".";
   "-C"; tmp_src_dir +:+ "/main/resources"; "META-INF";
   "-C"; tmp_src_dir +:+ "/main/resources"; "com/github/codeql/extractor.name"].

Definition compile_to_jar (build_dir tmp_src_dir : string) (srcs : list string) (version : Version)
    (classpath java_classpath output : string) : M unit :=
  let class_dir := build_dir +:+ "/classes" in
  b ← os_path_exists class_dir;
  (if (b : bool) then shutil_rmtree class_dir else mret tt);;
  os_makedirs class_dir false;;
  compile_to_dir build_dir srcs version classpath java_classpath class_dir;;
  run_process (jar_command output class_dir tmp_src_dir) false;;
  shutil_rmtree class_dir.

Definition find_sources (path : string) : M (list string) := λ w,
  (Ok (glob_ext path ".kt" (fs w) ++ glob_ext path ".java" (fs w)), w).

Definition find_jar (path base : string) : M string :=
  let fn := path +:+ "/" +:+ base +:+ ".jar" in
  b ← os_path_isfile fn;
  if (b : bool) then mret fn else raise (Exception ("Cannot find jar file at " +:+ fn)).

Definition bases_to_classpath (path : string) (bases : list string) : M string :=
  result ← map_M (find_jar path) bases;
  mret (Str.join os_pathsep result).

Definition import_old : string := "import com.intellij".
Definition import_new : string := "import org.jetbrains.kotlin.com.intellij".

Definition transform_to_embeddable (srcs : list string) : M unit :=
  for_each srcs (λ src,
    content ← read_file src;
    let content := Str.replace content import_old import_new in
    open_w src;;
    f_write src content).

(** The directory of the overrides of a version, below [tmp_src_dir]. *)
Definition version_dir (tmp_src_dir : string) (a_version : Version) : string :=
  tmp_src_dir +:+ "/main/kotlin/utils/versions/v_" +:+ Str.replace (toString a_version) "." "_".

(** Lines 168 to 193 of [compile]: the scratch copy of the sources with the
    overrides of the versions up to the target laid over it. *)
Definition compile_sources (output build_dir version_str : string) : M (string * Version) :=
  let tmp_src_dir := build_dir +:+ "/temp_src" in
  b ← os_path_exists tmp_src_dir;
  (if (b : bool) then shutil_rmtree tmp_src_dir else mret tt);;
  shutil_copytree "src" tmp_src_dir false;;
  let include_version_folder := tmp_src_dir +:+ "/main/kotlin/utils/this_version" in
  os_makedirs include_version_folder false;;
  let resource_dir := tmp_src_dir +:+ "/main/resources/com/github/codeql" in
  os_makedirs resource_dir false;;
  open_w (resource_dir +:+ "/extractor.name");;
  f_write (resource_dir +:+ "/extractor.name") output;;
  version ← match version_string_to_version version_str with
            | inr v => mret v
            | inl e => raise e
            end;
  for_each many_versions_versions_asc (λ a_version,
    if lessThanOrEqual a_version version then
      let d := version_dir tmp_src_dir a_version in
      b ← os_path_exists d;
      if (b : bool) then shutil_copytree d include_version_folder true else mret tt
    else mret tt);;
  shutil_rmtree (tmp_src_dir +:+ "/main/kotlin/utils/versions");;
  mret (tmp_src_dir, version).

Definition compile (jars java_jars : list string) (dependency_folder : string)
    (transform_to_embeddable : list string → M unit)
    (output build_dir version_str : string) : M unit :=
  classpath ← bases_to_classpath dependency_folder jars;
  java_classpath ← bases_to_classpath dependency_folder java_jars;
  '(tmp_src_dir, version) ← compile_sources output build_dir version_str;
  srcs ← find_sources tmp_src_dir;
  transform_to_embeddable srcs;;
  compile_to_jar build_dir tmp_src_dir srcs version classpath java_classpath output;;
  shutil_rmtree tmp_src_dir.

Definition embeddable_jar (version : string) : string :=
  "codeql-extractor-kotlin-embeddable-" +:+ version +:+ ".jar".

Definition standalone_jar (version : string) : string :=
  "codeql-extractor-kotlin-standalone-" +:+ version +:+ ".jar".

Definition compile_embeddable (version : string) : M unit :=
  compile ["kotlin-stdlib-" +:+ version; "kotlin-compiler-embeddable-" +:+ version]
          ["kotlin-stdlib-" +:+ version]
          kotlin_dependency_folder
          transform_to_embeddable
          (embeddable_jar version)
          ("build_embeddable_" +:+ version)
          version.

Definition compile_standalone (version : string) : M unit :=
  compile ["kotlin-stdlib-" +:+ version; "kotlin-compiler-" +:+ version]
          ["kotlin-stdlib-" +:+ version]
          kotlin_dependency_folder
          (λ srcs, mret tt)
          (standalone_jar version)
          ("build_standalone_" +:+ version)
          version.

End Tools.

Definition no_kotlinc_message : string :=
  "Cannot build the Kotlin extractor: no kotlinc found on your PATH".

Definition usage_message : string :=
  "--single-version-embeddable requires --single-version".

(** Python's truth value of [args.single_version]: [None] and the empty
    string are false. *)
Definition truthy (o : option string) : option string :=
  match o with
  | Some s => if decide (s = "") then None else Some s
  | None => None
  end.

(** The module-level statements, after [parse_args] has returned [args]. *)
Definition main (args : Namespace) : M unit :=
  match shutil_which "kotlinc" with
  | None => eprint no_kotlinc_message;; sys_exit 1
  | Some kotlinc =>
      let kotlin_dependency_folder := dependencies args in
      match truthy (single_version args) with
      | Some version =>
          if single_version_embeddable args
          then compile_embeddable kotlinc kotlin_dependency_folder version
          else compile_standalone kotlinc kotlin_dependency_folder version
      | None =>
          if single_version_embeddable args
          then eprint usage_message;; sys_exit 1
          else if many args
          then for_each many_versions (λ version,
                 compile_standalone kotlinc kotlin_dependency_folder version;;
                 compile_embeddable kotlinc kotlin_dependency_folder version)
          else (λ w, match get_single_version (fs w) with
                     | inr version => compile_standalone kotlinc kotlin_dependency_folder version w
                     | inl e => (Raise e, w)
                     end)
      end
  end.

End Build.

(** ** Specification vocabulary *)

(** The line of an argument file that holds [arg]. *)
Definition arg_line (arg : string) : string :=
  "'" +:+ Str.replace arg "\" "/" +:+ "'" +:+ Str.nl.

Definition slash (c : ascii) : ascii :=
  if decide (c = "\"%char) then "/"%char else c.

Fixpoint str_map (f : ascii → ascii) (s : string) : string :=
  match s with
  | EmptyString => EmptyString
  | String c s' => String (f c) (str_map f s')
  end.

(** The command line an exception handler prints. *)
Definition shell_line (c : command) : string :=
  match c with
  | Shell line => line
  | Argv a => shlex_join a
  end.

Definition succeeded (e : event) : Prop := ev_status e = 0.

(** The archive a [jar cf] command writes. *)
Definition jar_output (argv : list string) : option string :=
  match argv with
  | a :: b :: output :: _ => if decide (a = "jar" ∧ b = "cf") then Some output else None
  | _ => None
  end.

(** The archives that the child processes [evs] produced. *)
Definition archives (evs : list event) : list string :=
  omap (λ e, if decide (ev_status e = 0) then jar_output (ev_argv e) else None) evs.

Section Traces.
Context `{!Platform}.

(** The failure of the child [e] was printed last on the error stream and
    is the exception [x]. *)
Definition reported (e : event) (x : exn) (w' : world) : Prop :=
  x = CalledProcessError (ev_cmd e) (ev_status e) None ∧
  ∃ pre, stderr w' = pre ++ ["In: " +:+ os_getcwd;
                             "Command failed: " +:+ shell_line (ev_cmd e)].

(** A run from [w] with result [res] follows the plan [cmds]: the children
    it started are the first of [cmds], in order; all of [cmds] when it
    returns; every child exited with status 0, save the last one of a run
    that raises that child's failure; and the run does not leave through
    [sys.exit]. *)
Definition follows {A} (cmds : list (list string)) (w : world) (res : outcome A * world) : Prop :=
  ∃ evs, procs res.2 = procs w ++ evs ∧ (ev_argv <$> evs) `prefix_of` cmds ∧
    match res.1 with
    | Ok _ => ev_argv <$> evs = cmds ∧ Forall succeeded evs
    | Exit _ => False
    | Raise x =>
        Forall succeeded evs ∨
        ∃ evs0 e, evs = evs0 ++ [e] ∧ Forall succeeded evs0 ∧ ev_status e ≠ 0 ∧
                  reported e x res.2
    end.

(** A computation that starts no child process and does not call
    [sys.exit]. *)
Definition quiet {A} (m : M A) : Prop :=
  ∀ w, procs (m w).2 = procs w ∧ ∀ c, (m w).1 ≠ Exit c.

End Traces.

(** The children one call of [compile] starts. *)
Definition compile_plan (kotlinc output build_dir : string) : list (list string) :=
  [[kotlinc; "-J-Xmx2G"; "@" +:+ build_dir +:+ "/kotlin.args"];
   [javac; "@" +:+ build_dir +:+ "/java.args"];
   jar_command output (build_dir +:+ "/classes") (build_dir +:+ "/temp_src")].

Section Plans.
Context `{!Platform, !PluginVersions}.

(** The children the build of one target starts. *)
Definition target_plan (kotlinc : string) (embeddable : bool) (version : string) :
    list (list string) :=
  if embeddable
  then compile_plan kotlinc (embeddable_jar version) ("build_embeddable_" +:+ version)
  else compile_plan kotlinc (standalone_jar version) ("build_standalone_" +:+ version).

(** The children a whole run starts, from the arguments and the file system
    it begins with. *)
Definition main_plan (args : Namespace) (m : gmap (list string) node) : list (list string) :=
  match shutil_which "kotlinc" with
  | None => []
  | Some kotlinc =>
      match truthy (single_version args) with
      | Some version => target_plan kotlinc (single_version_embeddable args) version
      | None =>
          if single_version_embeddable args then []
          else if many args
          then concat ((λ version, target_plan kotlinc false version ++
                                   target_plan kotlinc true version) <$> many_versions)
          else match get_single_version m with
               | inr version => target_plan kotlinc false version
               | inl _ => []
               end
      end
  end.

(** The arguments with the flag [--many] set or cleared. *)
Definition with_many (b : bool) (args : Namespace) : Namespace :=
  {| dependencies := dependencies args; many := b;
     single_version := single_version args;
     single_version_embeddable := single_version_embeddable args |}.

(** The world after [line] was printed on the error stream. *)
Definition complained (line : string) (w : world) : world :=
  World (fs w) (stdout w) (stderr w ++ [line]) (procs w).

End Plans.

(** A file system is well formed when every entry has a name and lies in
    directories all the way up. *)
Definition well_formed (m : gmap (list string) node) : Prop :=
  map_Forall (λ p _, p ≠ [] ∧ Forall (λ q, m !! q = Some Dir) (dir_chain (removelast p))) m.

(** The places of the scratch tree, relative to its root. *)
Definition versions_rel : list string := ["main"; "kotlin"; "utils"; "versions"].
Definition this_version_rel : list string := ["main"; "kotlin"; "utils"; "this_version"].
Definition resource_rel : list string := ["main"; "resources"; "com"; "github"; "codeql"].
Definition marker_rel : list string := resource_rel ++ ["extractor.name"].

Section Overlays.
Context `{!PluginVersions}.

(** The folder of the overrides of a version, relative to the source tree. *)
Definition override_rel (r : Version) : list string :=
  versions_rel ++ parse_path ("v_" +:+ Str.replace (toString r) "." "_").

(** Laying the overrides of [r] over [acc], in the sources [m] for the
    target [v]: the entry of [r] at [rel] wins when [r] is at most [v] and
    has one. *)
Definition overlay_step (m : gmap (list string) node) (v : Version) (rel : list string)
    (acc : option node) (r : Version) : option node :=
  if lessThanOrEqual r v
  then match m !! ("src" :: override_rel r ++ rel) with
       | Some n => Some n
       | None => acc
       end
  else acc.

(** The entry at [rel] of the overrides laid over each other in the order of
    the registry. *)
Definition overlay (m : gmap (list string) node) (v : Version) (rel : list string) : option node :=
  foldl (overlay_step m v rel) None many_versions_versions_asc.

(** Some file below [p] has a directory at the same place below [q]. *)
Definition file_meets_dir (m : gmap (list string) node) (p q : list string) : bool :=
  existsb (λ e, is_file (Some e.2) && is_dir (m !! (q ++ e.1))) (entries_below p m).

(** The overrides of the registered versions up to [v] agree on what is a
    file and what a directory: no place is a file in one of them and a
    directory in another. *)
Definition kinds_agree (m : gmap (list string) node) (v : Version) : bool :=
  let upto := List.filter (λ r, lessThanOrEqual r v) many_versions_versions_asc in
  forallb (λ r, forallb (λ r', negb (file_meets_dir m ("src" :: override_rel r)
                                       ("src" :: override_rel r'))) upto) upto.

End Overlays.

(** The content of a source file after the embeddable transform: its text
    with the old import replaced by the new one, written as text. *)
Definition transformed `{!Platform} (c : string) : string :=
  write_newlines os_linesep (Str.replace (read_newlines c) import_old import_new).



Global Instance well_formed_dec (m : gmap (list string) node) : Decision (well_formed m).
Proof. unfold well_formed. apply _. Defined.

(** The body of the loop of [compile] over the versions of the registry. *)
Definition overlay_body `{!PluginVersions} (tmp_src_dir : string) (version : Version)
    (a_version : Version) : M unit :=
  if lessThanOrEqual a_version version then
    let d := version_dir tmp_src_dir a_version in
    b ← os_path_exists d;
    if (b : bool)
    then shutil_copytree d (tmp_src_dir +:+ "/main/kotlin/utils/this_version") true
    else mret tt
  else mret tt.

(** The body of the loop of [write_arg_file]. *)
Definition write_arg `{!Platform} (arg_file arg : string) : M unit :=
  if Str.contains "'" arg
  then raise (Exception ("Single quote in argument: " +:+ arg))
  else f_write arg_file ("'" +:+ Str.replace arg "\" "/" +:+ "'" +:+ Str.nl).

(** ** A small installation to run the script on *)

Module Demo.

Definition tree (l : list (string * node)) : gmap (list string) node :=
  list_to_map ((λ e, (parse_path e.1, e.2)) <$> l).

(** The sources with three override folders, and the dependencies of two
    versions. *)
Definition files : list (string * node) := [
  ("src", Dir); ("src/main", Dir); ("src/main/kotlin", Dir);
  ("src/main/kotlin/Main.kt", File "import com.intellij.psi; import com.intellij");
  ("src/main/java", Dir); ("src/main/java/X.java", File "class X {}");
  ("src/main/kotlin/utils", Dir);
  ("src/main/kotlin/utils/versions", Dir);
  ("src/main/kotlin/utils/versions/v_1_4_20", Dir);
  ("src/main/kotlin/utils/versions/v_1_4_20/A.kt", File "A 1.4.20");
  ("src/main/kotlin/utils/versions/v_1_4_20/B.kt", File "B 1.4.20");
  ("src/main/kotlin/utils/versions/v_1_5_0", Dir);
  ("src/main/kotlin/utils/versions/v_1_5_0/A.kt", File "A 1.5.0");
  ("src/main/kotlin/utils/versions/v_1_6_0", Dir);
  ("src/main/kotlin/utils/versions/v_1_6_0/A.kt", File "A 1.6.0");
  ("src/main/kotlin/utils/versions/v_1_6_0/C.kt", File "C 1.6.0");
  ("src/main/resources", Dir); ("src/main/resources/META-INF", Dir);
  ("deps", Dir);
  ("deps/kotlin-stdlib-1.5.0.jar", File "jar");
  ("deps/kotlin-compiler-1.5.0.jar", File "jar");
  ("deps/kotlin-compiler-embeddable-1.5.0.jar", File "jar");
  ("deps/kotlin-stdlib-1.6.0.jar", File "jar");
  ("deps/kotlin-compiler-1.6.0.jar", File "jar");
  ("deps/kotlin-compiler-embeddable-1.6.0.jar", File "jar")].

Definition start : world := World (tree files) [] [] [].

(** The same with an archive left by an earlier build. *)
Definition stale : world :=
  World (tree (("codeql-extractor-kotlin-standalone-1.5.0.jar", File "earlier build") :: files))
        [] [] [].

(** A Linux machine; [kotlinc] is installed or not, and exits with
    [kotlinc_status]; the other tools succeed.  No child touches the files. *)
Definition platform (installed : bool) (kotlinc_status : Z) : Platform := {|
  platform_system := "Linux";
  os_pathsep := ":";
  os_getcwd := "/work";
  shutil_which := λ name,
    if decide (name = "kotlinc") then (if installed then Some "/usr/bin/kotlinc" else None)
    else None;
  os_exec := λ c m,
    match c with
    | Argv (exe :: _) =>
        if decide (exe = "/usr/bin/kotlinc") then Exited kotlinc_status "" "boom" m
        else Exited 0 "" "" m
    | _ => Exited 0 "" "" m
    end;
  decode_utf8 := λ s, s;
  text_decodes := λ _, true
|}.

Definition known : list (string * (nat * string)) :=
  [("1.4.20", (0%nat, "1.4")); ("1.5.0", (1%nat, "1.5")); ("1.6.0", (2%nat, "1.6"))].

(** A registry of three versions, numbered in ascending order. *)
Definition registry : PluginVersions := {|
  Version := nat;
  version_string_to_version := λ s,
    match list_find (λ e, e.1 = s) known with
    | Some (_, e) => inr e.2.1
    | None => inl (Exception "unknown version")
    end;
  lessThanOrEqual := Nat.leb;
  toString := λ v, default "" (fst <$> known !! v);
  toLanguageVersionString := λ v, default "" ((λ e, e.2.2) <$> known !! v);
  many_versions := ["1.5.0"; "1.6.0"];
  many_versions_versions_asc := [0%nat; 1%nat; 2%nat];
  get_single_version := λ _, inr "1.5.0"
|}.

Definition arguments (many : bool) (single_version : option string) (embeddable : bool) :
    Namespace :=
  {| dependencies := "deps"; many := many; single_version := single_version;
     single_version_embeddable := embeddable |}.

(** The failed compiler run of the build of the standalone 1.5.0 target. *)
Definition kotlinc_failure : event :=
  Event ["/usr/bin/kotlinc"; "-J-Xmx2G"; "@build_standalone_1.5.0/kotlin.args"]
        (Argv ["/usr/bin/kotlinc"; "-J-Xmx2G"; "@build_standalone_1.5.0/kotlin.args"]) 1.

Definition version_query : list string := ["/usr/bin/kotlinc"; "-version"].

Definition arg_file : string := "deps/kotlin.args".

End Demo.

(** The archive of a dependency, and whether it is there. *)
Definition jar_path (path base : string) : string := path +:+ "/" +:+ base +:+ ".jar".

Definition jar_present (m : gmap (list string) node) (path base : string) : bool :=
  is_file (node_at m (parse_path (jar_path path base))).

(** How often a character occurs in a string. *)
Fixpoint str_count (c : ascii) (s : string) : nat :=
  match s with
  | EmptyString => O
  | String a s' => (if decide (a = c) then 1 else 0) + str_count c s'
  end.

(** What [quote_for_batch] returns when it returns. *)
Definition batch_quoted (arg : string) : string :=
  if Str.contains ";" arg || Str.contains "=" arg
  then Str.dquote +:+ arg +:+ Str.dquote
  else arg.

(** The arguments [quote_for_batch] refuses. *)
Definition batch_refused (arg : string) : bool :=
  (Str.contains ";" arg || Str.contains "=" arg) && Str.contains Str.dquote arg.




(** ** More installations *)

Module Cases.

(** A Windows machine on which every child succeeds. *)
Definition windows : Platform := {|
  platform_system := "Windows";
  os_pathsep := ";";
  os_getcwd := "C:/work";
  shutil_which := λ name, if decide (name = "kotlinc") then Some "kotlinc.bat" else None;
  os_exec := λ c m, Exited 0 "" "" m;
  decode_utf8 := λ s, s;
  text_decodes := λ _, true
|}.

(** A working directory with nothing in it. *)
Definition bare : world := World ∅ [] [] [].

Definition compiler_jars : list string := ["kotlin-stdlib-1.5.0"; "kotlin-compiler-1.5.0"].

Definition old_jars : list string := ["kotlin-stdlib-1.5.0"; "kotlin-stdlib-1.4.20"].

Definition javac_command : list string := ["javac"; "-d"; "out"; "-cp"; "a.jar;b.jar"].









End Cases.

(** * Properties *)

(** ** Strings *)

Lemma app_nil_r (s : string) : s +:+ "" = s.
Proof. induction s as [|c s IH]; [done|]. unfold String.app in *. simpl. by rewrite IH. Qed.

Lemma app_assoc (a b c : string) : (a +:+ b) +:+ c = a +:+ (b +:+ c).
Proof. induction a as [|x a IH]; [done|]. unfold String.app in *. simpl. by rewrite IH. Qed.

Lemma app_cons (x : ascii) (a b : string) : String x a +:+ b = String x (a +:+ b).
Proof. done. Qed.

Lemma app_nil_l (s : string) : "" +:+ s = s.
Proof. done. Qed.

Lemma contains_char_cons (a c : ascii) (s : string) :
  Str.contains (String a "") (String c s) = bool_decide (a = c) || Str.contains (String a "") s.
Proof.
  simpl. by destruct (decide (a = c)); [rewrite bool_decide_eq_true_2|rewrite bool_decide_eq_false_2].
Qed.

Lemma contains_char_app (a : ascii) (x y : string) :
  Str.contains (String a "") (x +:+ y) =
  Str.contains (String a "") x || Str.contains (String a "") y.
Proof.
  induction x as [|c x IH]; [done|].
  rewrite app_cons, !contains_char_cons, IH. by rewrite orb_assoc.
Qed.

Lemma replace_backslash (s : string) : Str.replace s "\" "/" = str_map slash s.
Proof.
  unfold Str.replace. induction s as [|c s IH]; [done|].
  simpl. unfold slash at 1. destruct (decide ("\"%char = c)) as [<-|Hc].
  - simpl. by rewrite IH.
  - rewrite decide_False by done. by rewrite IH.
Qed.

Lemma str_map_slash_clean (s : string) : Str.contains "\" (str_map slash s) = false.
Proof.
  induction s as [|c s IH]; [done|].
  cbn [str_map]. rewrite contains_char_cons, IH, orb_false_r.
  apply bool_decide_eq_false_2. unfold slash. by case_decide; [|congruence].
Qed.

Lemma arg_line_clean (arg : string) : Str.contains "\" (arg_line arg) = false.
Proof.
  unfold arg_line. rewrite !contains_char_app, replace_backslash, str_map_slash_clean.
  done.
Qed.

Lemma concat_lines_clean (args : list string) :
  Str.contains "\" (Str.concat (arg_line <$> args)) = false.
Proof.
  induction args as [|a args IH]; [done|].
  cbn [fmap list_fmap Str.concat]. by rewrite contains_char_app, arg_line_clean, IH.
Qed.

Lemma concat_snoc (l : list string) (x : string) :
  Str.concat (l ++ [x]) = Str.concat l +:+ x.
Proof.
  induction l as [|y l IH]; simpl; [by rewrite app_nil_r|]. by rewrite IH, app_assoc.
Qed.

(** ** Line ends *)

Lemma write_newlines_app (sep a b : string) :
  write_newlines sep (a +:+ b) = write_newlines sep a +:+ write_newlines sep b.
Proof.
  induction a as [|x a IH]; [done|]. rewrite app_cons. cbn [write_newlines].
  by rewrite IH, app_assoc.
Qed.

Lemma write_newlines_lf (s : string) : write_newlines (String lf "") s = s.
Proof.
  induction s as [|c s IH]; [done|]. cbn [write_newlines]. rewrite IH.
  by destruct (decide (c = lf)) as [->|].
Qed.

(** Writing brings in no character but those of the text and of the line
    end. *)
Lemma write_newlines_char (a : ascii) (sep s : string) :
  Str.contains (String a "") sep = false →
  Str.contains (String a "") s = false →
  Str.contains (String a "") (write_newlines sep s) = false.
Proof.
  intros Hsep. induction s as [|c s IH]; [done|].
  rewrite contains_char_cons. intros [Hc Hs]%orb_false_elim.
  cbn [write_newlines]. rewrite contains_char_app, (IH Hs), orb_false_r.
  destruct (decide (c = lf)); [done|]. by rewrite contains_char_cons, Hc.
Qed.

Lemma read_newlines_clean (s : string) :
  Str.contains (String cr "") (read_newlines s) = false.
Proof.
  assert (∀ n s, (String.length s < n)%nat →
                 Str.contains (String cr "") (read_newlines s) = false) as H.
  { intros n. induction n as [|n IH]; intros t Hn; [lia|].
    destruct t as [|c t]; [done|]. cbn [read_newlines]. simpl in Hn.
    destruct (decide (c = cr)) as [->|Hc].
    - destruct t as [|c' t]; [done|]. simpl in Hn.
      destruct (decide (c' = lf)); rewrite contains_char_cons; cbn [bool_decide orb].
      + rewrite bool_decide_eq_false_2 by done. apply IH. lia.
      + rewrite bool_decide_eq_false_2 by done. apply IH. simpl. lia.
    - rewrite contains_char_cons, bool_decide_eq_false_2 by congruence.
      apply IH. lia. }
  apply (H (S (String.length s))). lia.
Qed.

Lemma read_newlines_plain (s : string) :
  Str.contains (String cr "") s = false → read_newlines s = s.
Proof.
  induction s as [|c s IH]; [done|]. rewrite contains_char_cons.
  intros [Hc Hs]%orb_false_elim. apply bool_decide_eq_false in Hc.
  cbn [read_newlines]. rewrite decide_False by congruence. by rewrite IH.
Qed.

Lemma write_newlines_none (sep s : string) :
  Str.contains Str.nl s = false → write_newlines sep s = s.
Proof.
  induction s as [|c s IH]; [done|]. unfold Str.nl. rewrite contains_char_cons.
  intros [Hc Hs]%orb_false_elim. apply bool_decide_eq_false in Hc.
  cbn [write_newlines]. rewrite decide_False by (unfold lf; congruence).
  by rewrite app_cons, app_nil_l, (IH Hs).
Qed.

(** What was written with either line end is read back as it was. *)
Lemma read_write_newlines (sep s : string) :
  sep = String lf "" ∨ sep = String cr (String lf "") →
  Str.contains (String cr "") s = false →
  read_newlines (write_newlines sep s) = s.
Proof.
  intros Hsep. induction s as [|c s IH]; [done|]. rewrite contains_char_cons.
  intros [Hc Hs]%orb_false_elim. apply bool_decide_eq_false in Hc.
  cbn [write_newlines]. destruct (decide (c = lf)) as [->|Hlf].
  - destruct Hsep as [-> | ->].
    + rewrite app_cons, app_nil_l. cbn [read_newlines]. rewrite decide_False by done.
      by rewrite IH.
    + rewrite !app_cons, app_nil_l. cbn [read_newlines]. rewrite decide_True by done.
      rewrite decide_True by done. by rewrite IH.
  - rewrite app_cons, app_nil_l. cbn [read_newlines]. rewrite decide_False by congruence.
    by rewrite IH.
Qed.

(** ** The monad *)

Lemma bind_unfold {A B} (m : M A) (f : A → M B) (w : world) :
  (m ≫= f) w = match m w with
               | (Ok a, w') => f a w'
               | (Raise e, w') => (Raise e, w')
               | (Exit c, w') => (Exit c, w')
               end.
Proof. done. Qed.

Lemma bind_ok {A B} (m : M A) (f : A → M B) (w w1 : world) (a : A) :
  m w = (Ok a, w1) → (m ≫= f) w = f a w1.
Proof. intros H. by rewrite bind_unfold, H. Qed.

Lemma bind_raise {A B} (m : M A) (f : A → M B) (w w1 : world) (e : exn) :
  m w = (Raise e, w1) → (m ≫= f) w = (Raise e, w1).
Proof. intros H. by rewrite bind_unfold, H. Qed.

Lemma bind_ok_inv {A B} (m : M A) (f : A → M B) (w w' : world) (b : B) :
  (m ≫= f) w = (Ok b, w') → ∃ a w1, m w = (Ok a, w1) ∧ f a w1 = (Ok b, w').
Proof.
  rewrite bind_unfold. destruct (m w) as [[a|e|c] w1]; [eauto|done..].
Qed.

Lemma outcome_eta {A} (r : outcome A * world) (a : A) : r.1 = Ok a → r = (Ok a, r.2).
Proof. destruct r as [o w]. simpl. by intros ->. Qed.

Lemma set_fs_id (w : world) (f : gmap (list string) node → gmap (list string) node) :
  f (fs w) = fs w → set_fs f w = w.
Proof. destruct w as [m o e p]. unfold set_fs. simpl. by intros ->. Qed.

Lemma set_fs_twice (w : world) (f g : gmap (list string) node → gmap (list string) node) :
  set_fs f (set_fs g w) = set_fs (λ m, f (g m)) w.
Proof. done. Qed.

Lemma set_fs_ext (w : world) (f g : gmap (list string) node → gmap (list string) node) :
  f (fs w) = g (fs w) → set_fs f w = set_fs g w.
Proof. unfold set_fs. by intros ->. Qed.

(** ** The argument file *)

Section ArgFile.
Context `{!Platform}.

Lemma os_linesep_cases :
  os_linesep = String lf "" ∨ os_linesep = String cr (String lf "").
Proof. unfold os_linesep. case_decide; eauto. Qed.

Lemma os_linesep_elsewhere (s : string) :
  platform_system ≠ "Windows" → write_newlines os_linesep s = s.
Proof. intros Hp. unfold os_linesep. rewrite decide_False by done. apply write_newlines_lf. Qed.

Lemma written_clean (s : string) :
  Str.contains "\" s = false → Str.contains "\" (write_newlines os_linesep s) = false.
Proof. apply write_newlines_char. by destruct os_linesep_cases as [-> | ->]. Qed.

Lemma write_args_all (arg_file : string) (args : list string) (c : string) (w : world) :
  fs w !! parse_path arg_file = Some (File c) →
  Forall (λ a, Str.contains "'" a = false) args →
  for_each args (write_arg arg_file) w =
  (Ok tt, set_fs (<[parse_path arg_file := File (c +:+ write_newlines os_linesep (Str.concat (arg_line <$> args)))]>) w).
Proof.
  intros Hc Hall. revert c w Hc.
  induction Hall as [|a args Ha _ IH]; intros c w Hc.
  - simpl. rewrite app_nil_r. f_equal. symmetry. apply set_fs_id. by apply insert_id.
  - cbn [for_each]. rewrite bind_unfold. unfold write_arg at 1. rewrite Ha.
    unfold f_write. rewrite Hc.
    rewrite (IH (c +:+ write_newlines os_linesep (arg_line a))).
    + f_equal. rewrite set_fs_twice. apply set_fs_ext.
      rewrite insert_insert_eq. cbn [fmap list_fmap Str.concat].
      by rewrite write_newlines_app, app_assoc.
    + simpl. by rewrite lookup_insert_eq.
Qed.

Lemma write_args_quote (arg_file : string) (pre post : list string) (bad c : string) (w : world) :
  fs w !! parse_path arg_file = Some (File c) →
  Forall (λ a, Str.contains "'" a = false) pre →
  Str.contains "'" bad = true →
  for_each (pre ++ bad :: post) (write_arg arg_file) w =
  (Raise (Exception ("Single quote in argument: " +:+ bad)),
   set_fs (<[parse_path arg_file := File (c +:+ write_newlines os_linesep (Str.concat (arg_line <$> pre)))]>) w).
Proof.
  intros Hc Hall Hbad. revert c w Hc.
  induction Hall as [|a args Ha _ IH]; intros c w Hc.
  - simpl. rewrite bind_unfold. unfold write_arg at 1. rewrite Hbad. unfold raise.
    rewrite app_nil_r. f_equal. symmetry. apply set_fs_id. by apply insert_id.
  - cbn [for_each app]. rewrite bind_unfold. unfold write_arg at 1. rewrite Ha.
    unfold f_write. rewrite Hc.
    rewrite (IH (c +:+ write_newlines os_linesep (arg_line a))).
    + f_equal. rewrite set_fs_twice. apply set_fs_ext.
      rewrite insert_insert_eq. cbn [fmap list_fmap Str.concat].
      by rewrite write_newlines_app, app_assoc.
    + simpl. by rewrite lookup_insert_eq.
Qed.

Lemma first_quote (args : list string) :
  Forall (λ a, Str.contains "'" a = false) args ∨
  ∃ pre bad post, args = pre ++ bad :: post ∧
    Forall (λ a, Str.contains "'" a = false) pre ∧ Str.contains "'" bad = true.
Proof.
  induction args as [|a args [IH|(pre & bad & post & -> & Hpre & Hbad)]].
  - by left.
  - destruct (Str.contains "'" a) eqn:Ha.
    + right. by exists [], a, args.
    + left. by constructor.
  - destruct (Str.contains "'" a) eqn:Ha.
    + right. by exists [], a, (pre ++ bad :: post).
    + right. exists (a :: pre), bad, post. split; [done|]. split; [by constructor|done].
Qed.

Lemma open_w_ok (p : string) (w w1 : world) :
  open_w p w = (Ok tt, w1) →
  w1 = set_fs (<[parse_path p := File ""]>) w.
Proof. unfold open_w. intros Hopen. by repeat case_match; simplify_eq. Qed.

(** What [write_arg_file] does once the file is open. *)
Lemma write_arg_file_plain (arg_file : string) (args : list string) (w w1 : world) :
  open_w arg_file w = (Ok tt, w1) →
  Forall (λ a, Str.contains "'" a = false) args →
  write_arg_file arg_file args w =
  (Ok tt, set_fs (<[parse_path arg_file := File (write_newlines os_linesep (Str.concat (arg_line <$> args)))]>) w).
Proof.
  intros Hopen Hall. pose proof (open_w_ok _ _ _ Hopen) as ->.
  assert (fs (set_fs (<[parse_path arg_file := File ""]>) w) !! parse_path arg_file
          = Some (File "")) as Hc by (simpl; apply lookup_insert_eq).
  unfold write_arg_file. rewrite (bind_ok _ _ _ _ _ Hopen).
  change (for_each args _) with (for_each args (write_arg arg_file)).
  rewrite (write_args_all _ _ _ _ Hc Hall). f_equal.
  rewrite set_fs_twice. apply set_fs_ext. by rewrite insert_insert_eq.
Qed.

Lemma write_arg_file_quoted (arg_file : string) (pre post : list string) (bad : string)
    (w w1 : world) :
  open_w arg_file w = (Ok tt, w1) →
  Forall (λ a, Str.contains "'" a = false) pre →
  Str.contains "'" bad = true →
  write_arg_file arg_file (pre ++ bad :: post) w =
  (Raise (Exception ("Single quote in argument: " +:+ bad)),
   set_fs (<[parse_path arg_file := File (write_newlines os_linesep (Str.concat (arg_line <$> pre)))]>) w).
Proof.
  intros Hopen Hpre Hbad. pose proof (open_w_ok _ _ _ Hopen) as ->.
  assert (fs (set_fs (<[parse_path arg_file := File ""]>) w) !! parse_path arg_file
          = Some (File "")) as Hc by (simpl; apply lookup_insert_eq).
  unfold write_arg_file. rewrite (bind_ok _ _ _ _ _ Hopen).
  change (for_each (pre ++ bad :: post) _)
    with (for_each (pre ++ bad :: post) (write_arg arg_file)).
  rewrite (write_args_quote _ _ _ _ _ _ Hc Hpre Hbad). f_equal.
  rewrite set_fs_twice. apply set_fs_ext. by rewrite insert_insert_eq.
Qed.

(** C7: once the argument file is open, a list of arguments without single
    quotes is written as one quoted line per argument; at the first argument
    that holds a single quote the call raises, and the file holds the lines
    of the arguments before it and nothing of the offending one.  The lines
    end as the platform ends its lines: off Windows the text is written as
    it is. *)
Theorem write_arg_file_format (arg_file : string) (args : list string) (w w1 : world) :
  open_w arg_file w = (Ok tt, w1) →
  (Forall (λ a, Str.contains "'" a = false) args →
   write_arg_file arg_file args w =
   (Ok tt, set_fs (<[parse_path arg_file := File (write_newlines os_linesep (Str.concat (arg_line <$> args)))]>) w)) ∧
  (∀ pre bad post, args = pre ++ bad :: post →
   Forall (λ a, Str.contains "'" a = false) pre →
   Str.contains "'" bad = true →
   write_arg_file arg_file args w =
   (Raise (Exception ("Single quote in argument: " +:+ bad)),
    set_fs (<[parse_path arg_file :=
                File (write_newlines os_linesep (Str.concat (arg_line <$> pre)))]>) w)) ∧
  (platform_system ≠ "Windows" → ∀ text, write_newlines os_linesep text = text).
Proof.
  intros Hopen. split; [|split].
  - intros Hall. by apply (write_arg_file_plain _ _ _ w1).
  - intros pre bad post -> Hpre Hbad. by apply (write_arg_file_quoted _ _ _ _ _ w1).
  - intros Hp text. by apply os_linesep_elsewhere.
Qed.

End ArgFile.

Lemma write_arg_file_format_witness :
  open_w Demo.arg_file Demo.start = (Ok tt, (open_w Demo.arg_file Demo.start).2) ∧
  (Forall (λ a, Str.contains "'" a = false) ["-d"; "C:\out"] ∧
   @write_arg_file (Demo.platform true 0) Demo.arg_file ["-d"; "C:\out"] Demo.start =
   (Ok tt, set_fs (<[parse_path Demo.arg_file :=
                       File (write_newlines (@os_linesep (Demo.platform true 0))
                               (Str.concat (arg_line <$> ["-d"; "C:\out"])))]>)
             Demo.start)) ∧
  (["-d"; "it's"; "x"] = ["-d"] ++ "it's" :: ["x"] ∧
   Forall (λ a, Str.contains "'" a = false) ["-d"] ∧
   Str.contains "'" "it's" = true ∧
   @write_arg_file (Demo.platform true 0) Demo.arg_file ["-d"; "it's"; "x"] Demo.start =
   (Raise (Exception ("Single quote in argument: " +:+ "it's")),
    set_fs (<[parse_path Demo.arg_file :=
                File (write_newlines (@os_linesep (Demo.platform true 0))
                        (Str.concat (arg_line <$> ["-d"])))]>)
      Demo.start)) ∧
  write_newlines (@os_linesep (Demo.platform true 0))
    (Str.concat (arg_line <$> ["-d"; "C:\out"]))
  = "'-d'" +:+ Str.nl +:+ "'C:/out'" +:+ Str.nl.
Proof.
  assert (open_w Demo.arg_file Demo.start = (Ok tt, (open_w Demo.arg_file Demo.start).2))
    as Hopen by (apply outcome_eta; vm_compute; reflexivity).
  assert (Forall (λ a, Str.contains "'" a = false) ["-d"; "C:\out"]) as H1
    by (repeat constructor).
  assert (Forall (λ a, Str.contains "'" a = false) ["-d"]) as H2 by (repeat constructor).
  split; [exact Hopen|]. split; [|split].
  - split; [exact H1|].
    exact (proj1 (@write_arg_file_format (Demo.platform true 0) _ ["-d"; "C:\out"] _ _ Hopen)
             H1).
  - split; [reflexivity|]. split; [exact H2|]. split; [reflexivity|].
    exact (proj1 (proj2 (@write_arg_file_format (Demo.platform true 0) _ ["-d"; "it's"; "x"]
                           _ _ Hopen))
             ["-d"] "it's" ["x"] eq_refl H2 eq_refl).
  - reflexivity.
Defined.

Section NoBackslash.
Context `{!Platform}.

(** C10: every backslash of an argument is written as a forward slash:
    whatever the outcome, the argument file that was opened holds, for the
    arguments written, their characters with each backslash turned into a
    slash, the lines ended as the platform ends its lines, and so no
    backslash at all. *)
Theorem write_arg_file_no_backslash (arg_file : string) (args : list string)
    (w w1 : world) (content : string) :
  open_w arg_file w = (Ok tt, w1) →
  fs (write_arg_file arg_file args w).2 !! parse_path arg_file = Some (File content) →
  (∃ written, written `prefix_of` args ∧
     content = write_newlines os_linesep
                 (Str.concat ((λ arg, "'" +:+ str_map slash arg +:+ "'" +:+ Str.nl)
                              <$> written))) ∧
  Str.contains "\" content = false.
Proof.
  intros Hopen Hc.
  assert (∀ l : list string, arg_line <$> l = (λ arg, "'" +:+ str_map slash arg +:+ "'" +:+ Str.nl) <$> l)
    as Hlines.
  { intros l. apply list_fmap_ext. intros _ arg _. unfold arg_line.
    by rewrite replace_backslash. }
  destruct (first_quote args) as [Hall|(pre & bad & post & Heq & Hpre & Hq)].
  - rewrite (write_arg_file_plain _ _ _ _ Hopen Hall) in Hc. simpl in Hc.
    rewrite lookup_insert_eq in Hc.
    injection Hc as <-. split; [|apply written_clean, concat_lines_clean].
    exists args. by rewrite Hlines.
  - subst args. rewrite (write_arg_file_quoted _ _ _ _ _ _ Hopen Hpre Hq) in Hc.
    simpl in Hc. rewrite lookup_insert_eq in Hc.
    injection Hc as <-. split; [|apply written_clean, concat_lines_clean].
    exists pre. rewrite Hlines. split; [|done]. by apply prefix_app_r.
Qed.

End NoBackslash.

Lemma write_arg_file_no_backslash_witness :
  open_w Demo.arg_file Demo.start = (Ok tt, (open_w Demo.arg_file Demo.start).2) ∧
  fs (@write_arg_file (Demo.platform true 0) Demo.arg_file ["-d"; "C:\out"] Demo.start).2
    !! parse_path Demo.arg_file
  = Some (File ("'-d'" +:+ Str.nl +:+ "'C:/out'" +:+ Str.nl)) ∧
  Str.contains "\" ("'-d'" +:+ Str.nl +:+ "'C:/out'" +:+ Str.nl) = false.
Proof.
  assert (open_w Demo.arg_file Demo.start = (Ok tt, (open_w Demo.arg_file Demo.start).2))
    as Hopen by (apply outcome_eta; vm_compute; reflexivity).
  assert (fs (@write_arg_file (Demo.platform true 0) Demo.arg_file ["-d"; "C:\out"]
                Demo.start).2
            !! parse_path Demo.arg_file
          = Some (File ("'-d'" +:+ Str.nl +:+ "'C:/out'" +:+ Str.nl))) as Hc
    by (vm_compute; reflexivity).
  split; [exact Hopen|]. split; [exact Hc|].
  exact (proj2 (@write_arg_file_no_backslash (Demo.platform true 0) _ _ _ _ _ Hopen Hc)).
Defined.

(** ** Child processes *)

Section Processes.
Context `{!Platform, !PluginVersions}.

Lemma quiet_ret {A} (a : A) : quiet (mret a : M A).
Proof. by intros w. Qed.

Lemma quiet_raise {A} (e : exn) : quiet (raise e : M A).
Proof. by intros w. Qed.

Lemma quiet_bind {A B} (m : M A) (f : A → M B) :
  quiet m → (∀ a, quiet (f a)) → quiet (m ≫= f).
Proof.
  intros Hm Hf w. rewrite bind_unfold. destruct (Hm w) as [Hp Hx].
  destruct (m w) as [[a|e|c] w1]; simpl in *; [|done|by destruct (Hx c)].
  destruct (Hf a w1) as [Hp' Hx']. by rewrite Hp'.
Qed.

Lemma quiet_for_each {A} (l : list A) (body : A → M unit) :
  (∀ x, quiet (body x)) → quiet (for_each l body).
Proof.
  intros Hb. induction l as [|x l IH]; [apply quiet_ret|].
  apply quiet_bind; [apply Hb|by intros _].
Qed.

Lemma quiet_map_M {A B} (f : A → M B) (l : list A) :
  (∀ x, quiet (f x)) → quiet (map_M f l).
Proof.
  intros Hf. induction l as [|x l IH]; [apply quiet_ret|].
  cbn [map_M]. apply quiet_bind; [apply Hf|]. intros y.
  apply quiet_bind; [apply IH|]. intros ys. apply quiet_ret.
Qed.

Lemma quiet_if {A} (b : bool) (m1 m2 : M A) :
  quiet m1 → quiet m2 → quiet (if b then m1 else m2).
Proof. by destruct b. Qed.

Ltac quiet_prim := intros w; repeat (simpl; case_match); simpl; try done.

Lemma quiet_intro {A} (m : M A) :
  (∀ w, procs (m w).2 = procs w) → (∀ w c, (m w).1 ≠ Exit c) → quiet m.
Proof. intros Hp Hx w. split; [apply Hp|apply Hx]. Qed.

Lemma quiet_print (s : string) : quiet (print s).
Proof. by intros w. Qed.

Lemma quiet_eprint (s : string) : quiet (eprint s).
Proof. by intros w. Qed.

Lemma quiet_exists (p : string) : quiet (os_path_exists p).
Proof. by intros w. Qed.

Lemma quiet_isfile (p : string) : quiet (os_path_isfile p).
Proof. by intros w. Qed.

Lemma quiet_rmtree (p : string) : quiet (shutil_rmtree p).
Proof. apply quiet_intro; unfold shutil_rmtree; quiet_prim. Qed.

Lemma quiet_makedirs (p : string) (exist_ok : bool) : quiet (os_makedirs p exist_ok).
Proof. apply quiet_intro; unfold os_makedirs; quiet_prim. Qed.

Lemma quiet_copytree (src dst : string) (exist_ok : bool) :
  quiet (shutil_copytree src dst exist_ok).
Proof.
  intros w. unfold shutil_copytree.
  destruct (quiet_makedirs dst exist_ok w) as [Hm Hx].
  destruct (os_makedirs dst exist_ok w) as [[[]|e|c] w1]; simpl in *.
  - repeat (simpl; case_match); simpl; done.
  - repeat (simpl; case_match); simpl; done.
  - by destruct (Hx c).
Qed.

Lemma quiet_open_w (p : string) : quiet (open_w p).
Proof. apply quiet_intro; unfold open_w; quiet_prim. Qed.

Lemma quiet_f_write (p s : string) : quiet (f_write p s).
Proof. apply quiet_intro; unfold f_write; quiet_prim. Qed.

Lemma quiet_read_file (p : string) : quiet (read_file p).
Proof. apply quiet_intro; unfold read_file; quiet_prim. Qed.

Lemma quiet_find_sources (p : string) : quiet (find_sources p).
Proof. by intros w. Qed.

Lemma quiet_write_arg_file (arg_file : string) (args : list string) :
  quiet (write_arg_file arg_file args).
Proof.
  apply quiet_bind; [apply quiet_open_w|]. intros _.
  apply quiet_for_each. intros arg.
  apply quiet_if; [apply quiet_raise|apply quiet_f_write].
Qed.

Lemma quiet_quote_for_batch (arg : string) : quiet (quote_for_batch arg).
Proof.
  unfold quote_for_batch. repeat apply quiet_if; first [apply quiet_raise|apply quiet_ret].
Qed.

Lemma quiet_bases_to_classpath (path : string) (bases : list string) :
  quiet (bases_to_classpath path bases).
Proof.
  apply quiet_bind; [|intros; apply quiet_ret].
  apply quiet_map_M. intros base. apply quiet_bind; [apply quiet_isfile|].
  intros b. apply quiet_if; [apply quiet_ret|apply quiet_raise].
Qed.

Lemma quiet_transform_to_embeddable (srcs : list string) :
  quiet (transform_to_embeddable srcs).
Proof.
  apply quiet_for_each. intros src.
  apply quiet_bind; [apply quiet_read_file|]. intros c.
  apply quiet_bind; [apply quiet_open_w|]. intros _. apply quiet_f_write.
Qed.

Lemma quiet_compile_sources (output build_dir version_str : string) :
  quiet (compile_sources output build_dir version_str).
Proof.
  unfold compile_sources.
  apply quiet_bind; [apply quiet_exists|]. intros b.
  apply quiet_bind; [apply quiet_if; [apply quiet_rmtree|apply quiet_ret]|]. intros _.
  apply quiet_bind; [apply quiet_copytree|]. intros _.
  apply quiet_bind; [apply quiet_makedirs|]. intros _.
  apply quiet_bind; [apply quiet_makedirs|]. intros _.
  apply quiet_bind; [apply quiet_open_w|]. intros _.
  apply quiet_bind; [apply quiet_f_write|]. intros _.
  apply quiet_bind; [destruct (version_string_to_version _); [apply quiet_raise|apply quiet_ret]|].
  intros v.
  apply quiet_bind.
  { apply quiet_for_each. intros r. apply quiet_if; [|apply quiet_ret].
    apply quiet_bind; [apply quiet_exists|]. intros b'.
    apply quiet_if; [apply quiet_copytree|apply quiet_ret]. }
  intros _. apply quiet_bind; [apply quiet_rmtree|]. intros _. apply quiet_ret.
Qed.

(** *** Plans *)

Lemma follows_quiet {A} (m : M A) (w : world) : quiet m → follows [] w (m w).
Proof.
  intros Hq. destruct (Hq w) as [Hp Hx]. exists []. rewrite Hp, (right_id_L [] (++)).
  split; [done|]. split; [done|]. destruct (m w).1 as [a|x|c]; [auto..|by apply (Hx c)].
Qed.

Lemma follows_bind {A B} (c1 c2 : list (list string)) (m : M A) (f : A → M B) (w : world) :
  follows c1 w (m w) → (∀ a w1, m w = (Ok a, w1) → follows c2 w1 (f a w1)) →
  follows (c1 ++ c2) w ((m ≫= f) w).
Proof.
  intros (evs1 & Hp1 & Hpre1 & H1) Hf. rewrite bind_unfold.
  destruct (m w) as [[a|x|c] w1]; simpl in *.
  - destruct (Hf a w1 eq_refl) as (evs2 & Hp2 & Hpre2 & H2). destruct H1 as [Hc1 Hs1].
    exists (evs1 ++ evs2). rewrite Hp2, Hp1, (assoc_L (++)). split; [done|].
    rewrite fmap_app, Hc1. split; [by apply prefix_app|].
    destruct (f a w1) as [[b|x|c] w2]; simpl in *.
    + destruct H2 as [-> Hs2]. split; [done|]. by apply Forall_app.
    + destruct H2 as [Hs2|(evs0 & e & -> & Hs0 & He & Hr)].
      * left. by apply Forall_app.
      * right. exists (evs1 ++ evs0), e. rewrite (assoc_L (++)).
        split; [done|]. split; [by apply Forall_app|done].
    + done.
  - exists evs1. split; [done|]. split; [by apply prefix_app_r|done].
  - done.
Qed.

Lemma follows_bind_quiet {A B} (c : list (list string)) (m : M A) (f : A → M B) (w : world) :
  quiet m → (∀ a w1, m w = (Ok a, w1) → follows c w1 (f a w1)) →
  follows c w ((m ≫= f) w).
Proof.
  intros Hq Hf. apply (follows_bind [] c); [by apply follows_quiet|done].
Qed.

Lemma follows_for_each {A} (plan : A → list (list string)) (l : list A) (body : A → M unit)
    (w : world) :
  (∀ x w1, follows (plan x) w1 (body x w1)) →
  follows (concat (plan <$> l)) w (for_each l body w).
Proof.
  intros Hb. revert w. induction l as [|x l IH]; intros w.
  - apply (follows_quiet (mret tt)), quiet_ret.
  - cbn [for_each fmap list_fmap concat]. apply follows_bind; [apply Hb|]. intros _ w1 _. apply IH.
Qed.

Lemma run_process_follows (cmd : list string) (w : world) :
  follows [cmd] w (run_process cmd false w).
Proof.
  unfold run_process.
  apply follows_bind_quiet; [apply quiet_print|]. intros _ w1 _.
  apply follows_bind_quiet.
  { apply quiet_if; [|apply quiet_ret].
    apply quiet_bind; [apply quiet_map_M, quiet_quote_for_batch|]. intros qs.
    apply quiet_bind; [apply quiet_print|]. intros _. apply quiet_ret. }
  intros cmd' w2 _. unfold try_except, subprocess_run.
  destruct (os_exec cmd' (fs w2)) as [|rc out err after].
  - exists []. simpl. rewrite (right_id_L [] (++)). split; [done|].
    split; [apply prefix_nil|by left].
  - destruct (decide (rc = 0)) as [->|Hrc].
    + exists [Event cmd cmd' 0]. simpl. split; [done|]. split; [done|].
      split; [done|]. by repeat constructor.
    + exists [Event cmd cmd' rc]. simpl. split; [done|]. split; [done|].
      right. exists [], (Event cmd cmd' rc). simpl. split; [done|]. split; [done|].
      split; [done|]. split; [done|]. simpl.
      exists (stderr w2). rewrite <- (assoc_L (++)). by destruct cmd'.
Qed.

Lemma compile_to_dir_follows (kotlinc build_dir : string) (srcs : list string)
    (version : Version) (classpath java_classpath output : string) (w : world) :
  follows [[kotlinc; "-J-Xmx2G"; "@" +:+ build_dir +:+ "/kotlin.args"];
           [javac; "@" +:+ build_dir +:+ "/java.args"]] w
    (compile_to_dir kotlinc build_dir srcs version classpath java_classpath output w).
Proof.
  unfold compile_to_dir. cbv zeta.
  apply follows_bind_quiet; [apply quiet_write_arg_file|]. intros _ w1 _.
  apply (follows_bind [_] [_]); [apply run_process_follows|]. intros _ w2 _.
  apply follows_bind_quiet; [apply quiet_write_arg_file|]. intros _ w3 _.
  apply run_process_follows.
Qed.

Lemma compile_to_jar_follows (kotlinc build_dir tmp_src_dir : string) (srcs : list string)
    (version : Version) (classpath java_classpath output : string) (w : world) :
  follows [[kotlinc; "-J-Xmx2G"; "@" +:+ build_dir +:+ "/kotlin.args"];
           [javac; "@" +:+ build_dir +:+ "/java.args"];
           jar_command output (build_dir +:+ "/classes") tmp_src_dir] w
    (compile_to_jar kotlinc build_dir tmp_src_dir srcs version classpath java_classpath output w).
Proof.
  unfold compile_to_jar. cbv zeta.
  apply follows_bind_quiet; [apply quiet_exists|]. intros b w1 _.
  apply follows_bind_quiet; [apply quiet_if; [apply quiet_rmtree|apply quiet_ret]|].
  intros _ w2 _.
  apply follows_bind_quiet; [apply quiet_makedirs|]. intros _ w3 _.
  apply (follows_bind [_; _] [_]); [apply compile_to_dir_follows|]. intros _ w4 _.
  apply (follows_bind [_] []); [apply run_process_follows|]. intros _ w5 _.
  apply follows_quiet, quiet_rmtree.
Qed.

Lemma compile_sources_scratch (output build_dir version_str : string) (w w' : world)
    (tmp_src_dir : string) (version : Version) :
  compile_sources output build_dir version_str w = (Ok (tmp_src_dir, version), w') →
  tmp_src_dir = build_dir +:+ "/temp_src".
Proof.
  unfold compile_sources. intros Hrun.
  repeat (apply bind_ok_inv in Hrun as (? & ? & _ & Hrun)).
  by injection Hrun as <- _ _.
Qed.

Lemma compile_follows (kotlinc : string) (jars java_jars : list string)
    (dependency_folder : string) (transform : list string → M unit)
    (output build_dir version_str : string) (w : world) :
  (∀ srcs, quiet (transform srcs)) →
  follows (compile_plan kotlinc output build_dir) w
    (compile kotlinc jars java_jars dependency_folder transform output build_dir version_str w).
Proof.
  intros Ht. unfold compile.
  apply follows_bind_quiet; [apply quiet_bases_to_classpath|]. intros classpath w1 _.
  apply follows_bind_quiet; [apply quiet_bases_to_classpath|]. intros java_classpath w2 _.
  apply follows_bind_quiet; [apply quiet_compile_sources|]. intros [tmp_src_dir version] w3 Hsrc.
  apply follows_bind_quiet; [apply quiet_find_sources|]. intros srcs w4 _.
  apply follows_bind_quiet; [apply Ht|]. intros _ w5 _.
  apply (follows_bind [_; _; _] []).
  - pose proof (compile_sources_scratch _ _ _ _ _ _ _ Hsrc) as Heq. subst tmp_src_dir.
    apply compile_to_jar_follows.
  - intros _ w6 _. apply follows_quiet, quiet_rmtree.
Qed.

Lemma compile_embeddable_follows (kotlinc deps version : string) (w : world) :
  follows (target_plan kotlinc true version) w (compile_embeddable kotlinc deps version w).
Proof. apply compile_follows, quiet_transform_to_embeddable. Qed.

Lemma compile_standalone_follows (kotlinc deps version : string) (w : world) :
  follows (target_plan kotlinc false version) w (compile_standalone kotlinc deps version w).
Proof. apply compile_follows. intros srcs. apply quiet_ret. Qed.

(** The three ways a run can go: no compiler, a usage error, or builds. *)
Lemma main_cases (args : Namespace) (w : world) :
  (shutil_which "kotlinc" = None ∧ main args w = (Exit 1, complained no_kotlinc_message w)) ∨
  (single_version_embeddable args = true ∧ truthy (single_version args) = None ∧
   main args w = (Exit 1, complained usage_message w)) ∨
  follows (main_plan args (fs w)) w (main args w).
Proof.
  unfold main, main_plan. destruct (shutil_which "kotlinc") as [kotlinc|]; [|by left].
  right. destruct (truthy (single_version args)) as [version|].
  - right. destruct (single_version_embeddable args).
    + apply compile_embeddable_follows.
    + apply compile_standalone_follows.
  - destruct (single_version_embeddable args); [by left|]. right.
    destruct (many args).
    + apply follows_for_each. intros version w1.
      apply follows_bind; [apply compile_standalone_follows|]. intros _ w2 _.
      apply compile_embeddable_follows.
    + destruct (get_single_version (fs w)) as [x|version].
      * exists []. simpl. rewrite (right_id_L [] (++)). split; [done|]. split; [done|]. by left.
      * apply compile_standalone_follows.
Qed.

Lemma follows_failure {A} (cmds : list (list string)) (w : world) (res : outcome A * world)
    (evs0 evs1 : list event) (e : event) :
  follows cmds w res →
  procs res.2 = procs w ++ evs0 ++ e :: evs1 → ev_status e ≠ 0 →
  evs1 = [] ∧ ∃ x, res.1 = Raise x ∧ reported e x res.2.
Proof.
  intros (evs & Hp & _ & Hres) Heq He. rewrite Hp in Heq. apply (inj (app _)) in Heq.
  assert (¬ Forall succeeded evs) as Hnot.
  { rewrite Heq, Forall_app, Forall_cons. intros (_ & Hs & _). by apply He. }
  destruct res.1 as [a|x|c]; [by destruct Hres|..|done].
  destruct Hres as [Hall|(evs' & e' & -> & Hs & He' & Hr)]; [done|].
  destruct (decide (evs1 = [])) as [->|Hne].
  - apply app_inj_tail in Heq as [-> ->]. eauto.
  - destruct (exists_last Hne) as (evs2 & z & ->).
    change (evs' ++ [e'] = evs0 ++ (e :: evs2) ++ [z]) in Heq.
    rewrite (assoc_L (++)) in Heq. apply app_inj_tail in Heq as [-> ->].
    apply Forall_app in Hs as [_ Hs]. apply Forall_cons in Hs as [Hs _]. by destruct He.
Qed.

Lemma self_append {A} (l k : list A) : l = l ++ k → k = [].
Proof.
  intros Heq. apply (f_equal length) in Heq. rewrite length_app in Heq.
  apply length_zero_iff_nil. lia.
Qed.

Lemma quote_for_batch_world (arg : string) (w : world) : (quote_for_batch arg w).2 = w.
Proof. unfold quote_for_batch. by repeat case_match. Qed.

Lemma map_M_quote_world (l : list string) (w : world) :
  (map_M quote_for_batch l w).2 = w ∧ ∀ c, (map_M quote_for_batch l w).1 ≠ Exit c.
Proof.
  induction l as [|a l [IH IHx]]; [done|].
  cbn [map_M]. rewrite bind_unfold.
  pose proof (quote_for_batch_world a w) as Ha.
  destruct (quote_for_batch a w) as [[q|x|c] w1] eqn:Hq; simpl in Ha; subst w1.
  - rewrite bind_unfold. destruct (map_M quote_for_batch l w) as [[qs|x|c] w1]; simpl in *.
    + done.
    + done.
    + by destruct (IHx c).
  - done.
  - unfold quote_for_batch in Hq. by repeat case_match.
Qed.

Lemma run_process_failure (cmd : list string) (capture : bool) (w : world) (e : event) :
  procs (run_process cmd capture w).2 = procs w ++ [e] → ev_status e ≠ 0 →
  ∃ out err after,
    os_exec (ev_cmd e) (fs w) = Exited (ev_status e) out err after ∧
    (run_process cmd capture w).1 =
      Raise (CalledProcessError (ev_cmd e) (ev_status e)
               (if capture then Some (out, err) else None)) ∧
    stderr (run_process cmd capture w).2 =
      stderr w ++ ["In: " +:+ os_getcwd; "Command failed: " +:+ shell_line (ev_cmd e)] ++
      (if capture
       then ["stdout output:" +:+ Str.nl +:+ decode_utf8 out;
             "stderr output:" +:+ Str.nl +:+ decode_utf8 err]
       else []).
Proof.
  unfold run_process. rewrite bind_unfold. cbn [print].
  set (w1 := World (fs w) (stdout w ++ _) (stderr w) (procs w)).
  rewrite bind_unfold.
  assert (∃ r w2, (if is_windows
                   then qs ← map_M quote_for_batch cmd;
                        print ("Converted to Windows command: " +:+ Str.join " " qs);;
                        mret (Shell (Str.join " " qs))
                   else mret (Argv cmd)) w1 = (r, w2) ∧
                  fs w2 = fs w ∧ stderr w2 = stderr w ∧ procs w2 = procs w ∧
                  ∀ c, r ≠ Exit c) as (r & w2 & -> & Hfs & Herr & Hprocs & Hx).
  { destruct is_windows; [|by eexists _, _].
    rewrite bind_unfold. destruct (map_M_quote_world cmd w1) as [Hw Hx].
    destruct (map_M quote_for_batch cmd w1) as [[qs|x|c] w2]; simpl in Hw; subst w2.
    - by eexists _, _.
    - by eexists _, _.
    - by destruct (Hx c). }
  destruct r as [cmd'|x|c]; simpl; [|rewrite Hprocs; intros Habs; by apply self_append in Habs
                                     |by destruct (Hx c)].
  unfold try_except, subprocess_run. rewrite Hfs.
  destruct (os_exec cmd' (fs w)) as [|rc out err after] eqn:Hexec.
  { simpl. rewrite Hprocs. intros Habs. by apply self_append in Habs. }
  destruct (decide (rc = 0)) as [->|Hrc].
  { simpl. rewrite Hprocs. intros Heq%(inj (app _)). injection Heq as <-. by intros []. }
  intros Heq He. assert (e = Event cmd cmd' rc) as ->.
  { destruct capture; simpl in Heq; rewrite Hprocs in Heq;
      apply (inj (app _)) in Heq; by injection Heq. }
  simpl. exists out, err, after. split; [done|].
  destruct capture; simpl; rewrite Herr, <- !(assoc_L (++)); by destruct cmd'.
Qed.

End Processes.

(** ** Paths and files *)

Section Files.
Implicit Types (m : gmap (list string) node) (p q k rel : list string).

Lemma components_app (a b : string) :
  components (a +:+ String "/" b) = components a ++ components b.
Proof.
  induction a as [|c a IH]; [done|].
  rewrite app_cons. cbn [components]. rewrite IH.
  destruct (decide (c = "/"%char)); [done|].
  destruct (components a) as [|x xs] eqn:Hc; [|done].
  by destruct a; simpl in Hc; repeat case_match.
Qed.

Lemma parse_path_app (a b : string) :
  parse_path (a +:+ String "/" b) = parse_path a ++ parse_path b.
Proof. unfold parse_path. by rewrite components_app, List.filter_app. Qed.

Lemma elem_of_dir_chain q p : q ∈ dir_chain p ↔ q ≠ [] ∧ q `prefix_of` p.
Proof.
  unfold dir_chain. rewrite list_elem_of_fmap. split.
  - intros (n & -> & [Hn1 Hn2]%elem_of_seq). split; [|apply prefix_take].
    destruct p; simpl in *; [lia|]. by destruct n; [lia|].
  - intros [Hq [k ->]]. exists (length q). rewrite take_app_length. split; [done|].
    apply elem_of_seq. rewrite length_app. destruct q; [done|]. simpl. lia.
Qed.

Lemma lookup_add_dirs p m k :
  add_dirs p m !! k = match m !! k with
                      | Some n => Some n
                      | None => if decide (k ≠ [] ∧ k `prefix_of` p) then Some Dir else None
                      end.
Proof.
  unfold add_dirs. destruct (m !! k) as [n|] eqn:Hk.
  - by apply lookup_union_Some_raw; left.
  - rewrite lookup_union_r by done. case_decide as Hd.
    + apply elem_of_list_to_map_1'.
      * by intros y (q & [= _ ->] & _)%list_elem_of_fmap.
      * apply list_elem_of_fmap. exists k. split; [done|]. by apply elem_of_dir_chain.
    + apply not_elem_of_list_to_map_1. rewrite <- list_fmap_compose.
      intros (q & -> & Hq%elem_of_dir_chain)%list_elem_of_fmap. by destruct Hd.
Qed.

Lemma lookup_add_dirs_Some p m k n : m !! k = Some n → add_dirs p m !! k = Some n.
Proof. intros Hk. by rewrite lookup_add_dirs, Hk. Qed.

Lemma lookup_add_dirs_other p m k : ¬ k `prefix_of` p → add_dirs p m !! k = m !! k.
Proof.
  intros Hk. rewrite lookup_add_dirs. destruct (m !! k); [done|].
  rewrite decide_False; [done|]. by intros [_ ?].
Qed.

Lemma lookup_remove_tree p m k :
  remove_tree p m !! k = if decide (p `prefix_of` k) then None else m !! k.
Proof.
  unfold remove_tree. case_decide as Hp.
  - apply map_lookup_filter_None. right. intros x _ Hn. by apply Hn.
  - destruct (m !! k) as [n|] eqn:Hk.
    + by apply map_lookup_filter_Some.
    + apply map_lookup_filter_None. by left.
Qed.

Lemma elem_of_entries_below p m rel n :
  (rel, n) ∈ entries_below p m ↔ rel ≠ [] ∧ m !! (p ++ rel) = Some n.
Proof.
  unfold entries_below. rewrite list_elem_of_omap. split.
  - intros ([k x] & Hin%elem_of_map_to_list & Hf). simpl in Hf.
    case_decide as Hd; [|done]. destruct Hd as [[t ->] Hne]. injection Hf as <- <-.
    rewrite drop_app_length. split; [|done]. intros ->. by rewrite (right_id_L [] (++)) in Hne.
  - intros [Hne Hk]. exists (p ++ rel, n). split; [by apply elem_of_map_to_list|].
    simpl. rewrite decide_True, drop_app_length; [done|]. split; [by apply prefix_app_r|].
    intros Heq. apply Hne. by apply (inj (app p)); rewrite (right_id_L [] (++)).
Qed.

Lemma lookup_copy_in p q m rel :
  rel ≠ [] →
  (list_to_map ((λ e, (q ++ e.1, e.2)) <$> entries_below p m) : gmap (list string) node)
    !! (q ++ rel) = m !! (p ++ rel).
Proof.
  intros Hne. destruct (m !! (p ++ rel)) as [n|] eqn:Hk.
  - apply elem_of_list_to_map_1'.
    + intros y ([rel' n'] & [= Heq ->] & Hin)%list_elem_of_fmap. simpl in *.
      apply (inj (app q)) in Heq as <-. apply elem_of_entries_below in Hin as [_ Hin].
      congruence.
    + apply list_elem_of_fmap. exists (rel, n). split; [done|].
      by apply elem_of_entries_below.
  - apply not_elem_of_list_to_map_1. rewrite <- list_fmap_compose.
    intros ([rel' n'] & Heq & Hin)%list_elem_of_fmap. simpl in *.
    apply (inj (app q)) in Heq as <-. apply elem_of_entries_below in Hin as [_ Hin].
    congruence.
Qed.

Lemma lookup_copy_out p q m k :
  (∀ rel, rel ≠ [] → k ≠ q ++ rel) →
  (list_to_map ((λ e, (q ++ e.1, e.2)) <$> entries_below p m) : gmap (list string) node)
    !! k = None.
Proof.
  intros Hk. apply not_elem_of_list_to_map_1. rewrite <- list_fmap_compose.
  intros ([rel n] & -> & Hin)%list_elem_of_fmap. simpl in *.
  apply elem_of_entries_below in Hin as [Hne _]. by apply (Hk rel).
Qed.

Lemma filter_all {A} (f : A → bool) (l : list A) :
  (∀ x, f x = true) → List.filter f l = l.
Proof. intros Hf. induction l as [|x l IH]; [done|]. simpl. by rewrite Hf, IH. Qed.

Lemma makedirs_ok (path : string) (exist_ok : bool) (w w' : world) :
  os_makedirs path exist_ok w = (Ok tt, w') →
  w' = set_fs (add_dirs (parse_path path)) w ∧
  (∀ q, q ≠ [] → q `prefix_of` parse_path path → is_file (fs w !! q) = false) ∧
  (exist_ok = false → is_dir (node_at (fs w) (parse_path path)) = false).
Proof.
  unfold os_makedirs. intros Hrun.
  destruct (existsb _ _) eqn:Hex; [by case_match|].
  destruct (is_dir _ && negb exist_ok) eqn:Hd; [done|]. injection Hrun as <-.
  split; [done|]. split.
  - intros q Hq Hpre. destruct (is_file (fs w !! q)) eqn:Hf; [|done].
    assert (existsb (λ a, is_file (fs w !! a)) (dir_chain (parse_path path)) = true) as Habs.
    { apply existsb_exists. exists q. split; [|done].
      apply list_elem_of_In, elem_of_dir_chain. done. }
    congruence.
  - intros ->. by rewrite andb_true_r in Hd.
Qed.

Lemma rmtree_ok (path : string) (w w' : world) :
  shutil_rmtree path w = (Ok tt, w') →
  node_at (fs w) (parse_path path) = Some Dir ∧
  w' = set_fs (remove_tree (parse_path path)) w.
Proof.
  unfold shutil_rmtree. intros Hrun.
  destruct (node_at (fs w) (parse_path path)) as [[c|]|]; [done| |done].
  by injection Hrun as <-.
Qed.

Lemma landing_below m d (e : list string * node) :
  e.1 ≠ [] → ∃ rel, rel ≠ [] ∧ landing m d e = d ++ rel.
Proof.
  intros He. unfold landing. destruct e.2; [|by exists e.1].
  destruct (is_dir _); [|by exists e.1].
  exists (e.1 ++ option_list (last e.1)). split; [|done]. by destruct e.1.
Qed.

Lemma landing_plain m d (e : list string * node) :
  (is_file (Some e.2) = true → is_dir (m !! (d ++ e.1)) = false) →
  landing m d e = d ++ e.1.
Proof. unfold landing. destruct e.2; [|done]. intros ->; done. Qed.

Lemma copytree_ok (src dst : string) (exist_ok : bool) (w w' : world) :
  shutil_copytree src dst exist_ok w = (Ok tt, w') →
  node_at (fs w) (parse_path src) = Some Dir ∧
  ¬ parse_path src `prefix_of` parse_path dst ∧
  os_makedirs dst exist_ok w = (Ok tt, set_fs (add_dirs (parse_path dst)) w) ∧
  ((∀ rel, is_file (fs w !! (parse_path src ++ rel)) = true →
           is_dir (fs w !! (parse_path dst ++ rel)) = false) →
   ∀ rel, rel ≠ [] →
     fs w' !! (parse_path dst ++ rel)
     = match fs w !! (parse_path src ++ rel) with
       | Some n => Some n
       | None => fs w !! (parse_path dst ++ rel)
       end) ∧
  (∀ k, (∀ rel, rel ≠ [] → k ≠ parse_path dst ++ rel) →
     fs w' !! k = add_dirs (parse_path dst) (fs w) !! k).
Proof.
  unfold shutil_copytree. intros Hrun.
  destruct (node_at (fs w) (parse_path src)) as [[c|]|]; [done| |done].
  case_bool_decide as Hpre; [done|].
  destruct (os_makedirs dst exist_ok w) as [[[]|e|c] w1] eqn:Hmk; [|done..].
  destruct (makedirs_ok _ _ _ _ Hmk) as (-> & _ & _).
  destruct (fst <$> List.filter _ _) as [|b bad] eqn:Hbad; [|done].
  injection Hrun as <-.
  rewrite filter_all by done.
  split; [done|]. split; [done|]. split; [done|]. simpl. split.
  - intros Hfits rel Hne.
    assert ((λ e, (landing (fs w) (parse_path dst) e, e.2))
              <$> entries_below (parse_path src) (fs w)
            = (λ e, (parse_path dst ++ e.1, e.2)) <$> entries_below (parse_path src) (fs w))
      as ->.
    { apply list_fmap_ext. intros i [rel' n] Hi%list_elem_of_lookup_2.
      apply elem_of_entries_below in Hi as [_ Hi]. simpl. f_equal.
      apply landing_plain. simpl. intros Hf. apply Hfits. rewrite Hi. done. }
    pose proof (lookup_copy_in (parse_path src) (parse_path dst) (fs w) rel Hne) as Hin.
    destruct (fs w !! (parse_path src ++ rel)) as [n|] eqn:Hk.
    + by apply lookup_union_Some_raw; left.
    + rewrite lookup_union_r by done. apply lookup_add_dirs_other.
      intros Hp%prefix_length. rewrite length_app in Hp. destruct rel; [done|]. simpl in Hp. lia.
  - intros k Hk. rewrite lookup_union_r; [done|].
    apply not_elem_of_list_to_map_1. rewrite <- list_fmap_compose.
    intros (e & -> & Hin)%list_elem_of_fmap. simpl in *.
    destruct e as [rel n]. apply elem_of_entries_below in Hin as [Hne _].
    destruct (landing_below (fs w) (parse_path dst) (rel, n) Hne) as (rel' & Hne' & Heq).
    by apply (Hk rel').
Qed.

(** A file system is a tree: every entry lies in a directory. *)
Lemma well_formed_below m p rel :
  well_formed m → p ≠ [] → rel ≠ [] → is_dir (m !! p) = false → m !! (p ++ rel) = None.
Proof.
  intros Hwf Hp Hrel Hd. destruct (m !! (p ++ rel)) as [n|] eqn:Hk; [|done].
  apply (map_Forall_lookup_1 _ _ _ _ Hwf) in Hk as [_ Hk].
  rewrite Forall_forall in Hk. rewrite (Hk p) in Hd; [done|].
  apply elem_of_dir_chain. split; [done|]. rewrite removelast_app by done.
  by apply prefix_app_r.
Qed.

End Files.

(** ** The scratch tree *)

Section Scratch.
Context `{!Platform, !PluginVersions}.
Implicit Types (m : gmap (list string) node) (p q k rel : list string).

Ltac unfold_rel :=
  unfold marker_rel, versions_rel, this_version_rel, resource_rel in *.

(** Two places that part ways at a name. *)
Ltac paths_differ H :=
  unfold_rel; rewrite <- ?(assoc_L (++)) in H;
  repeat (apply (inj (app _)) in H); by simplify_eq/=.

Ltac not_prefix H :=
  unfold_rel; rewrite <- ?(assoc_L (++)) in H;
  repeat apply prefix_app_inv in H; cbn [app] in H;
  repeat first [ apply prefix_cons_inv_1 in H; discriminate H
               | apply prefix_cons_inv_2 in H
               | apply prefix_nil_inv in H; discriminate H ].

Lemma node_at_cons m (x : string) p : node_at m (x :: p) = m !! (x :: p).
Proof. done. Qed.

Lemma node_at_lookup m p : p ≠ [] → node_at m p = m !! p.
Proof. by destruct p. Qed.

Lemma not_dir_not_file (o : option node) : is_dir o = false → is_file o = false → o = None.
Proof. by destruct o as [[]|]. Qed.

Lemma components_nonempty (s : string) : components s ≠ [].
Proof. destruct s; simpl; by repeat case_match. Qed.

Lemma override_folder_named (x : string) : parse_path ("v_" +:+ x) ≠ [].
Proof.
  unfold parse_path. change ("v_" +:+ x) with (String "v" (String "_" x)).
  cbn [components]. destruct (components x) as [|h t] eqn:Hc.
  { by destruct (components_nonempty x). }
  rewrite !decide_False by done. simpl. done.
Qed.

Lemma parse_scratch (build_dir : string) :
  parse_path (build_dir +:+ "/temp_src") = parse_path build_dir ++ ["temp_src"].
Proof. by rewrite (parse_path_app build_dir "temp_src"). Qed.

Lemma parse_this_version (tmp : string) :
  parse_path (tmp +:+ "/main/kotlin/utils/this_version") = parse_path tmp ++ this_version_rel.
Proof. by rewrite (parse_path_app tmp "main/kotlin/utils/this_version"). Qed.

Lemma parse_versions (tmp : string) :
  parse_path (tmp +:+ "/main/kotlin/utils/versions") = parse_path tmp ++ versions_rel.
Proof. by rewrite (parse_path_app tmp "main/kotlin/utils/versions"). Qed.

Lemma parse_resource (tmp : string) :
  parse_path (tmp +:+ "/main/resources/com/github/codeql") = parse_path tmp ++ resource_rel.
Proof. by rewrite (parse_path_app tmp "main/resources/com/github/codeql"). Qed.

Lemma parse_marker (tmp : string) :
  parse_path ((tmp +:+ "/main/resources/com/github/codeql") +:+ "/extractor.name")
  = parse_path tmp ++ marker_rel.
Proof.
  rewrite (parse_path_app _ "extractor.name"), parse_resource.
  unfold marker_rel. by rewrite (assoc_L (++)).
Qed.

Lemma parse_version_dir (tmp : string) (r : Version) :
  parse_path (version_dir tmp r) = parse_path tmp ++ override_rel r.
Proof.
  unfold version_dir, override_rel.
  transitivity (parse_path
    (tmp +:+ String "/" ("main/kotlin/utils/versions" +:+
                         String "/" ("v_" +:+ Str.replace (toString r) "." "_"))));
    [done|].
  by rewrite !parse_path_app.
Qed.

Lemma f_write_ok (path s : string) (w w' : world) :
  f_write path s w = (Ok tt, w') →
  ∃ c, fs w !! parse_path path = Some (File c) ∧
       w' = set_fs (<[parse_path path := File (c +:+ write_newlines os_linesep s)]>) w.
Proof.
  unfold f_write. intros Hrun.
  destruct (fs w !! parse_path path) as [[c|]|]; [|done..].
  injection Hrun as <-. by exists c.
Qed.

(** The scratch tree right after the copy: an exact copy of the sources. *)
Lemma scratch_copied (tmp : string) (w w0 w1 w2 : world) (b : bool) :
  well_formed (fs w) → parse_path tmp ≠ [] →
  os_path_exists tmp w = (Ok b, w0) →
  (if b then shutil_rmtree tmp else mret tt) w0 = (Ok tt, w1) →
  shutil_copytree "src" tmp false w1 = (Ok tt, w2) →
  fs w !! ["src"] = Some Dir ∧
  fs w2 !! parse_path tmp = Some Dir ∧
  ∀ rel, rel ≠ [] → fs w2 !! (parse_path tmp ++ rel) = fs w !! ("src" :: rel).
Proof.
  intros Hwf Ht Hex Hrm Hcp. set (T := parse_path tmp) in *.
  destruct (copytree_ok _ _ _ _ _ Hcp) as (Hsrc & Hpre & _ & Hin & Hout).
  change (parse_path "src") with ["src"] in *. fold T in Hpre, Hin, Hout.
  rewrite node_at_cons in Hsrc.
  assert (∀ rel, ¬ T `prefix_of` "src" :: rel) as Hapart.
  { intros rel Hp. apply Hpre. destruct T as [|x T']; [done|].
    apply prefix_cons_inv_1 in Hp as ->. apply (prefix_app [_] []), prefix_nil. }
  assert ((∀ rel, fs w1 !! ("src" :: rel) = fs w !! ("src" :: rel)) ∧
          (∀ rel, fs w1 !! (T ++ rel) = None)) as [Hsame Hfree].
  { unfold os_path_exists in Hex. injection Hex as Hb <-. fold T in Hb. destruct b.
    - apply rmtree_ok in Hrm as [_ ->]. fold T. simpl. split.
      + intros rel. rewrite lookup_remove_tree. by rewrite decide_False.
      + intros rel. rewrite lookup_remove_tree. rewrite decide_True; [done|].
        by apply prefix_app_r.
    - injection Hrm as <-. split; [done|]. intros rel.
      assert (fs w !! T = None) as Hnone.
      { apply bool_decide_eq_false in Hb. rewrite node_at_lookup in Hb by done.
        destruct (fs w !! T) eqn:Hn; [|done]. destruct Hb. eauto. }
      destruct (decide (rel = [])) as [->|Hrel]; [by rewrite (right_id_L [] (++))|].
      apply well_formed_below; [done..|]. by rewrite Hnone. }
  split; [by rewrite <- Hsame|]. split.
  - rewrite Hout.
    + rewrite lookup_add_dirs. rewrite <- (right_id_L [] (++) T) at 1. rewrite Hfree.
      by rewrite decide_True.
    + intros rel Hrel Heq. apply Hrel. apply (inj (app T)). by rewrite (right_id_L [] (++)).
  - intros rel Hrel. rewrite Hin; [|by intros rel' _; rewrite Hfree|done].
    change (["src"] ++ rel) with ("src" :: rel).
    rewrite Hsame, Hfree. by destruct (fs w !! ("src" :: rel)).
Qed.

(** The scratch tree before the overrides are laid over it: the folder of
    the current version is empty and the marker names the output. *)
Lemma scratch_prepared (tmp output : string) (m0 : gmap (list string) node)
    (w2 w3 w4 w5 w6 : world) :
  well_formed m0 →
  (∀ rel, rel ≠ [] → fs w2 !! (parse_path tmp ++ rel) = m0 !! ("src" :: rel)) →
  os_makedirs (tmp +:+ "/main/kotlin/utils/this_version") false w2 = (Ok tt, w3) →
  os_makedirs (tmp +:+ "/main/resources/com/github/codeql") false w3 = (Ok tt, w4) →
  open_w ((tmp +:+ "/main/resources/com/github/codeql") +:+ "/extractor.name") w4
  = (Ok tt, w5) →
  f_write ((tmp +:+ "/main/resources/com/github/codeql") +:+ "/extractor.name") output w5
  = (Ok tt, w6) →
  (∀ x, fs w6 !! (parse_path tmp ++ versions_rel ++ x) = m0 !! ("src" :: versions_rel ++ x)) ∧
  (∀ rel, rel ≠ [] → fs w6 !! (parse_path tmp ++ this_version_rel ++ rel) = None) ∧
  (∀ rel n, rel ≠ [] → m0 !! ("src" :: rel) = Some n →
            fs w6 !! (parse_path tmp ++ rel) = Some n) ∧
  (∀ n, fs w2 !! parse_path tmp = Some n → fs w6 !! parse_path tmp = Some n) ∧
  (∀ rel, rel ≠ [] → m0 !! ("src" :: this_version_rel ++ rel) = None) ∧
  fs w6 !! (parse_path tmp ++ marker_rel) = Some (File (write_newlines os_linesep output)).
Proof.
  intros Hwf Hcopy Hmk1 Hmk2 Hop Hwr. set (T := parse_path tmp) in *.
  apply makedirs_ok in Hmk1 as (-> & Hnf1 & Hnd1). rewrite parse_this_version in *.
  apply makedirs_ok in Hmk2 as (-> & Hnf2 & Hnd2). rewrite parse_resource in *.
  pose proof (open_w_ok _ _ _ Hop) as ->. rewrite parse_marker in *.
  apply f_write_ok in Hwr as (c & Hc & ->). rewrite parse_marker in *.
  fold T in Hnf1, Hnd1, Hnf2, Hnd2, Hc |- *. simpl in *.
  rewrite lookup_insert_eq in Hc. injection Hc as <-.
  specialize (Hnd1 eq_refl). specialize (Hnd2 eq_refl).
  assert (T ++ this_version_rel ≠ []) as Hne1 by (unfold_rel; by destruct T).
  assert (T ++ resource_rel ≠ []) as Hne2 by (unfold_rel; by destruct T).
  rewrite node_at_lookup in Hnd1, Hnd2 by done.
  assert (m0 !! ("src" :: this_version_rel) = None) as Hthis.
  { rewrite <- Hcopy by done. apply not_dir_not_file; [done|].
    apply Hnf1; [done|]. done. }
  assert (m0 !! ("src" :: resource_rel) = None) as Hres.
  { rewrite <- Hcopy by done.
    assert (add_dirs (T ++ this_version_rel) (fs w2) !! (T ++ resource_rel) = None) as Hn
      by (apply not_dir_not_file; [done|]; by apply Hnf2).
    rewrite lookup_add_dirs in Hn. by destruct (fs w2 !! (T ++ resource_rel)). }
  assert (∀ rel, rel ≠ [] → m0 !! ("src" :: this_version_rel ++ rel) = None) as Hthis'.
  { intros rel Hrel. apply (well_formed_below m0 ("src" :: this_version_rel) rel);
      [done..|]. by rewrite Hthis. }
  assert (m0 !! ("src" :: marker_rel) = None) as Hmark.
  { apply (well_formed_below m0 ("src" :: resource_rel) ["extractor.name"]); [done..|].
    by rewrite Hres. }
  assert (∀ k, k ≠ T ++ marker_rel →
            (<[T ++ marker_rel := File ("" +:+ write_newlines os_linesep output)]>
               (<[T ++ marker_rel := File ""]>
                  (add_dirs (T ++ resource_rel) (add_dirs (T ++ this_version_rel) (fs w2)))))
              !! k
            = add_dirs (T ++ resource_rel) (add_dirs (T ++ this_version_rel) (fs w2)) !! k)
    as Hother.
  { intros k Hk. by rewrite !lookup_insert_ne. }
  split; [|split; [|split; [|split; [|split]]]].
  - intros x. rewrite Hother by (intros Heq; paths_differ Heq).
    rewrite !lookup_add_dirs_other.
    + apply Hcopy. by unfold_rel.
    + intros Hp. not_prefix Hp.
    + intros Hp. not_prefix Hp.
  - intros rel Hrel. rewrite Hother by (intros Heq; paths_differ Heq).
    rewrite !lookup_add_dirs_other.
    + rewrite Hcopy by (by unfold_rel). by apply Hthis'.
    + intros Hp%prefix_app_inv%prefix_length.
      destruct rel; [done|]. unfold_rel. simpl in Hp. lia.
    + intros Hp. not_prefix Hp.
  - intros rel n Hrel Hn. rewrite Hother.
    + apply lookup_add_dirs_Some, lookup_add_dirs_Some. by rewrite Hcopy.
    + intros Heq%(inj (app T)). subst rel. congruence.
  - intros n Hn. rewrite Hother.
    + by apply lookup_add_dirs_Some, lookup_add_dirs_Some.
    + intros Heq. apply (f_equal length) in Heq. rewrite length_app in Heq.
      unfold_rel. simpl in Heq. lia.
  - done.
  - by rewrite lookup_insert_eq.
Qed.

(** One round of the loop: the overrides of one version.  What lies
    outside the folder of the current version stays. *)
Lemma overlay_round_frame (tmp : string) (version r : Version) (m0 : gmap (list string) node)
    (w w1 : world) :
  (∀ x, fs w !! (parse_path tmp ++ versions_rel ++ x) = m0 !! ("src" :: versions_rel ++ x)) →
  overlay_body tmp version r w = (Ok tt, w1) →
  (∀ x, fs w1 !! (parse_path tmp ++ versions_rel ++ x) = m0 !! ("src" :: versions_rel ++ x)) ∧
  (∀ k n, (∀ rel, rel ≠ [] → k ≠ parse_path tmp ++ this_version_rel ++ rel) →
          fs w !! k = Some n → fs w1 !! k = Some n).
Proof.
  intros Hver Hrun. set (T := parse_path tmp) in *.
  unfold overlay_body in *.
  destruct (lessThanOrEqual r version); [|by injection Hrun as <-].
  cbv zeta in Hrun. apply bind_ok_inv in Hrun as (b & w0 & Hex & Hrun).
  unfold os_path_exists in Hex. injection Hex as Hb <-.
  destruct b; [|by injection Hrun as <-].
  destruct (copytree_ok _ _ _ _ _ Hrun) as (_ & _ & _ & _ & Hout).
  rewrite parse_this_version in *. fold T in Hout. split.
  - intros x. rewrite Hout by (intros rel _ Heq; paths_differ Heq).
    rewrite lookup_add_dirs_other; [done|]. intros Hp. not_prefix Hp.
  - intros k n Hk Hn. rewrite Hout.
    + by apply lookup_add_dirs_Some.
    + intros rel Hrel. rewrite <- (assoc_L (++)). by apply Hk.
Qed.

(** In the folder of the current version the overrides of the version are
    laid over what was there, when none of its files meets a directory. *)
Lemma overlay_round_laid (tmp : string) (version r : Version) (m0 : gmap (list string) node)
    (w w1 : world) :
  well_formed m0 →
  (∀ x, fs w !! (parse_path tmp ++ versions_rel ++ x) = m0 !! ("src" :: versions_rel ++ x)) →
  (lessThanOrEqual r version = true → ∀ rel, rel ≠ [] →
     is_file (m0 !! ("src" :: override_rel r ++ rel)) = true →
     is_dir (fs w !! (parse_path tmp ++ this_version_rel ++ rel)) = false) →
  overlay_body tmp version r w = (Ok tt, w1) →
  ∀ rel, rel ≠ [] →
    fs w1 !! (parse_path tmp ++ this_version_rel ++ rel)
    = overlay_step m0 version rel (fs w !! (parse_path tmp ++ this_version_rel ++ rel)) r.
Proof.
  intros Hwf Hver Hfit Hrun. set (T := parse_path tmp) in *.
  unfold overlay_body, overlay_step in *.
  destruct (lessThanOrEqual r version); [|by injection Hrun as <-].
  specialize (Hfit eq_refl).
  cbv zeta in Hrun. apply bind_ok_inv in Hrun as (b & w0 & Hex & Hrun).
  unfold os_path_exists in Hex. injection Hex as Hb <-.
  rewrite parse_version_dir in Hb. fold T in Hb.
  assert (T ++ override_rel r ≠ []) as Hne.
  { unfold override_rel, versions_rel. by destruct T. }
  rewrite node_at_lookup in Hb by done.
  assert (fs w !! (T ++ override_rel r) = m0 !! ("src" :: override_rel r)) as Hdir.
  { unfold override_rel. apply Hver. }
  assert (∀ rel, fs w !! (T ++ override_rel r ++ rel) = m0 !! ("src" :: override_rel r ++ rel))
    as Hsub.
  { intros rel. unfold override_rel. rewrite <- !(assoc_L (++)). apply Hver. }
  destruct b.
  - destruct (copytree_ok _ _ _ _ _ Hrun) as (Hsrc & _ & _ & Hin & _).
    rewrite parse_version_dir, parse_this_version in *. fold T in Hin, Hsrc.
    rewrite node_at_lookup in Hsrc by done.
    intros rel Hrel. rewrite (assoc_L (++)), Hin; [|..|done].
    + by rewrite <- !(assoc_L (++)), Hsub.
    + intros rel' Hf. destruct (decide (rel' = [])) as [->|Hrel'].
      * rewrite (right_id_L [] (++)), Hsrc in Hf. done.
      * rewrite <- (assoc_L (++)). apply Hfit; [done|].
        by rewrite <- Hsub, (assoc_L (++)).
  - injection Hrun as <-. intros rel Hrel. apply bool_decide_eq_false in Hb.
    assert (m0 !! ("src" :: override_rel r ++ rel) = None) as ->; [|done].
    apply (well_formed_below m0 ("src" :: override_rel r) rel); [done..|].
    rewrite <- Hdir. destruct (fs w !! (T ++ override_rel r)); [|done].
    destruct Hb. eauto.
Qed.

Lemma overlay_rounds (tmp : string) (version : Version) (m0 : gmap (list string) node)
    (l : list Version) (w w' : world) :
  (∀ x, fs w !! (parse_path tmp ++ versions_rel ++ x) = m0 !! ("src" :: versions_rel ++ x)) →
  for_each l (overlay_body tmp version) w = (Ok tt, w') →
  (∀ x, fs w' !! (parse_path tmp ++ versions_rel ++ x) = m0 !! ("src" :: versions_rel ++ x)) ∧
  (∀ k n, (∀ rel, rel ≠ [] → k ≠ parse_path tmp ++ this_version_rel ++ rel) →
          fs w !! k = Some n → fs w' !! k = Some n).
Proof.
  revert w. induction l as [|r l IH]; intros w Hver Hrun.
  - injection Hrun as <-. done.
  - cbn [for_each] in Hrun. apply bind_ok_inv in Hrun as ([] & w1 & Hr & Hrun).
    destruct (overlay_round_frame _ _ _ _ _ _ Hver Hr) as (Hver1 & Hkeep1).
    destruct (IH w1 Hver1 Hrun) as (Hver' & Hkeep').
    split; [done|]. intros k n Hk Hn. by apply Hkeep', Hkeep1.
Qed.

(** The rounds of the loop, for versions none of whose files meets a
    directory of another or of what was there. *)
Lemma overlay_rounds_laid (tmp : string) (version : Version) (m0 : gmap (list string) node)
    (l : list Version) (acc : list string → option node) (w w' : world) :
  well_formed m0 →
  (∀ x, fs w !! (parse_path tmp ++ versions_rel ++ x) = m0 !! ("src" :: versions_rel ++ x)) →
  (∀ rel, rel ≠ [] → fs w !! (parse_path tmp ++ this_version_rel ++ rel) = acc rel) →
  (∀ r rel, r ∈ l → lessThanOrEqual r version = true → rel ≠ [] →
     is_file (m0 !! ("src" :: override_rel r ++ rel)) = true → is_dir (acc rel) = false) →
  (∀ r r' rel, r ∈ l → r' ∈ l →
     lessThanOrEqual r version = true → lessThanOrEqual r' version = true → rel ≠ [] →
     is_file (m0 !! ("src" :: override_rel r ++ rel)) = true →
     is_dir (m0 !! ("src" :: override_rel r' ++ rel)) = false) →
  for_each l (overlay_body tmp version) w = (Ok tt, w') →
  ∀ rel, rel ≠ [] →
    fs w' !! (parse_path tmp ++ this_version_rel ++ rel)
    = foldl (overlay_step m0 version rel) (acc rel) l.
Proof.
  intros Hwf. revert acc w.
  induction l as [|r l IH]; intros acc w Hver Hthis Hacc Hpair Hrun.
  - injection Hrun as <-. done.
  - cbn [for_each] in Hrun. apply bind_ok_inv in Hrun as ([] & w1 & Hr & Hrun).
    destruct (overlay_round_frame _ _ _ _ _ _ Hver Hr) as (Hver1 & _).
    assert (∀ rel, rel ≠ [] →
              fs w1 !! (parse_path tmp ++ this_version_rel ++ rel)
              = overlay_step m0 version rel (acc rel) r) as Hthis1.
    { intros rel Hrel. rewrite <- (Hthis rel Hrel).
      apply (overlay_round_laid _ _ _ _ _ _ Hwf Hver); [|done..].
      intros Hle rel' Hrel' Hf. rewrite Hthis by done.
      by apply (Hacc r); [left|..]. }
    intros rel Hrel. cbn [foldl].
    apply (IH (λ rel, overlay_step m0 version rel (acc rel) r) w1 Hver1 Hthis1); [| |done..].
    + intros r' rel' Hin Hle Hrel' Hf. unfold overlay_step.
      destruct (lessThanOrEqual r version) eqn:Hler;
        [|by apply (Hacc r'); [right|..]].
      destruct (m0 !! ("src" :: override_rel r ++ rel')) as [n|] eqn:Hn;
        [|by apply (Hacc r'); [right|..]].
      rewrite <- Hn. by apply (Hpair r' r); [right|left|..].
    + intros r1 r2 rel' Hin1 Hin2. apply Hpair; by right.
Qed.


Lemma kinds_agree_spec (m0 : gmap (list string) node) (version : Version) :
  kinds_agree m0 version = true →
  ∀ r r' rel, r ∈ many_versions_versions_asc → r' ∈ many_versions_versions_asc →
    lessThanOrEqual r version = true → lessThanOrEqual r' version = true → rel ≠ [] →
    is_file (m0 !! ("src" :: override_rel r ++ rel)) = true →
    is_dir (m0 !! ("src" :: override_rel r' ++ rel)) = false.
Proof.
  unfold kinds_agree. cbv zeta. rewrite forallb_forall.
  intros Hall r r' rel Hr Hr' Hle Hle' Hrel Hf.
  assert (∀ x, x ∈ many_versions_versions_asc → lessThanOrEqual x version = true →
               In x (List.filter (λ r, lessThanOrEqual r version) many_versions_versions_asc))
    as Hin.
  { intros x Hx Hlex. apply filter_In. split; [by apply list_elem_of_In|done]. }
  specialize (Hall r (Hin r Hr Hle)). rewrite forallb_forall in Hall.
  specialize (Hall r' (Hin r' Hr' Hle')). apply negb_true_iff in Hall.
  destruct (is_dir (m0 !! ("src" :: override_rel r' ++ rel))) eqn:Hd; [|done].
  destruct (m0 !! ("src" :: override_rel r ++ rel)) as [[c|]|] eqn:Hn; [|done..].
  assert (file_meets_dir m0 ("src" :: override_rel r) ("src" :: override_rel r') = true)
    as Habs; [|congruence].
  unfold file_meets_dir. apply existsb_exists. exists (rel, File c). split.
  - apply list_elem_of_In, elem_of_entries_below. done.
  - simpl. done.
Qed.

(** The scratch tree that [compile] hands to the compilers. *)
Lemma compile_sources_tree (output build_dir version_str tmp : string) (version : Version)
    (w w' : world) :
  well_formed (fs w) →
  compile_sources output build_dir version_str w = (Ok (tmp, version), w') →
  tmp = build_dir +:+ "/temp_src" ∧
  version_string_to_version version_str = inr version ∧
  (∀ rel n, fs w !! ("src" :: rel) = Some n → ¬ versions_rel `prefix_of` rel →
            fs w' !! (parse_path tmp ++ rel) = Some n) ∧
  (kinds_agree (fs w) version = true → ∀ rel, rel ≠ [] →
     fs w' !! (parse_path tmp ++ this_version_rel ++ rel) = overlay (fs w) version rel) ∧
  (∀ p, parse_path tmp ++ versions_rel `prefix_of` p → fs w' !! p = None) ∧
  fs w' !! (parse_path tmp ++ marker_rel) = Some (File (write_newlines os_linesep output)).
Proof.
  intros Hwf Hrun. unfold compile_sources in Hrun. cbv zeta in Hrun.
  apply bind_ok_inv in Hrun as (b & w0 & Hex & Hrun).
  apply bind_ok_inv in Hrun as ([] & w1 & Hrm & Hrun).
  apply bind_ok_inv in Hrun as ([] & w2 & Hcp & Hrun).
  apply bind_ok_inv in Hrun as ([] & w3 & Hmk1 & Hrun).
  apply bind_ok_inv in Hrun as ([] & w4 & Hmk2 & Hrun).
  apply bind_ok_inv in Hrun as ([] & w5 & Hop & Hrun).
  apply bind_ok_inv in Hrun as ([] & w6 & Hwr & Hrun).
  apply bind_ok_inv in Hrun as (v & w7 & Hv & Hrun).
  apply bind_ok_inv in Hrun as ([] & w8 & Hloop & Hrun).
  apply bind_ok_inv in Hrun as ([] & w9 & Hrm2 & Hrun).
  injection Hrun as <- -> <-.
  destruct (version_string_to_version version_str) as [e|v'] eqn:Hparse; [done|].
  injection Hv as -> <-.
  set (tmp := build_dir +:+ "/temp_src") in *. set (T := parse_path tmp).
  assert (T ≠ []) as HT.
  { unfold T, tmp. rewrite parse_scratch. by destruct (parse_path build_dir). }
  destruct (scratch_copied _ _ _ _ _ _ Hwf HT Hex Hrm Hcp) as (Hsrc & Hroot & Hcopy).
  destruct (scratch_prepared _ _ _ _ _ _ _ _ Hwf Hcopy Hmk1 Hmk2 Hop Hwr)
    as (Hver & Hempty & Hbase & Hroot' & Hfree & Hmark).
  destruct (overlay_rounds tmp version (fs w) _ _ _ Hver Hloop) as (_ & Hkeep).
  pose proof (λ Hk, overlay_rounds_laid tmp version (fs w) _ (λ _, None) _ _ Hwf Hver Hempty
                      (λ _ _ _ _ _ _, eq_refl) (kinds_agree_spec _ _ Hk) Hloop) as Hlaid.
  apply rmtree_ok in Hrm2 as [_ ->]. rewrite parse_versions. fold T in Hlaid, Hkeep |- *.
  fold T in Hroot, Hroot', Hbase, Hmark. cbn [fs set_fs].
  split; [done|]. split; [done|]. split; [|split; [|split]].
  - intros rel n Hn Hrel. rewrite lookup_remove_tree, decide_False.
    + destruct (decide (rel = [])) as [->|Hne].
      * rewrite (right_id_L [] (++)). apply Hkeep.
        { intros rel' Hrel' Heq. apply (f_equal length) in Heq.
          rewrite !length_app in Heq. destruct rel'; [done|]. simpl in Heq. lia. }
        apply Hroot'. rewrite Hroot. congruence.
      * apply Hkeep; [|by apply Hbase].
        intros rel' Hrel' Heq%(inj (app T)). subst rel. rewrite Hfree in Hn; done.
    + by intros Hp%prefix_app_inv.
  - intros Hk rel Hrel. rewrite lookup_remove_tree, decide_False.
    + by rewrite Hlaid.
    + intros Hp. not_prefix Hp.
  - intros p Hp. by rewrite lookup_remove_tree, decide_True.
  - rewrite lookup_remove_tree, decide_False.
    + apply Hkeep; [|done]. intros rel Hrel Heq. paths_differ Heq.
    + intros Hp. not_prefix Hp.
Qed.



End Scratch.



(** ** The archives of the dependencies *)

Section Jars.
Context `{!Platform, !PluginVersions}.

Lemma find_jar_present (path base : string) (w : world) :
  jar_present (fs w) path base = true → find_jar path base w = (Ok (jar_path path base), w).
Proof.
  intros Hp. unfold find_jar. rewrite bind_unfold. unfold os_path_isfile.
  unfold jar_present, jar_path in Hp. by rewrite Hp.
Qed.

Lemma find_jar_missing (path base : string) (w : world) :
  jar_present (fs w) path base = false →
  find_jar path base w
  = (Raise (Exception ("Cannot find jar file at " +:+ jar_path path base)), w).
Proof.
  intros Hp. unfold find_jar. rewrite bind_unfold. unfold os_path_isfile.
  unfold jar_present, jar_path in Hp. by rewrite Hp.
Qed.

Lemma find_jars_present (path : string) (bases : list string) (w : world) :
  Forall (λ base, jar_present (fs w) path base = true) bases →
  map_M (find_jar path) bases w = (Ok (jar_path path <$> bases), w).
Proof.
  induction 1 as [|base bases Hb _ IH]; [done|].
  cbn [map_M]. rewrite (bind_ok _ _ _ _ _ (find_jar_present _ _ _ Hb)).
  by rewrite (bind_ok _ _ _ _ _ IH).
Qed.

Lemma find_jars_missing (path : string) (found rest : list string) (base : string) (w : world) :
  Forall (λ base, jar_present (fs w) path base = true) found →
  jar_present (fs w) path base = false →
  map_M (find_jar path) (found ++ base :: rest) w
  = (Raise (Exception ("Cannot find jar file at " +:+ jar_path path base)), w).
Proof.
  intros Hfound Hb. induction Hfound as [|b found Hp _ IH].
  - cbn [app map_M]. by rewrite (bind_raise _ _ _ _ _ (find_jar_missing _ _ _ Hb)).
  - cbn [app map_M]. rewrite (bind_ok _ _ _ _ _ (find_jar_present _ _ _ Hp)).
    by rewrite (bind_raise _ _ _ _ _ IH).
Qed.

Lemma first_missing (m : gmap (list string) node) (path : string) (bases : list string) :
  Forall (λ base, jar_present m path base = true) bases ∨
  ∃ found base rest, bases = found ++ base :: rest ∧
    Forall (λ base, jar_present m path base = true) found ∧ jar_present m path base = false.
Proof.
  induction bases as [|b bases [IH|(found & base & rest & -> & Hf & Hb)]].
  - by left.
  - destruct (jar_present m path b) eqn:Hp.
    + left. by constructor.
    + right. by exists [], b, bases.
  - destruct (jar_present m path b) eqn:Hp.
    + right. exists (b :: found), base, rest. split; [done|]. split; [by constructor|done].
    + right. by exists [], b, (found ++ base :: rest).
Qed.

End Jars.

(** ** The embeddable transform *)

Section Transform.
Context `{!Platform, !PluginVersions}.

(** The new import holds no place where the old one could begin. *)
Lemma contains_after_new (t : string) :
  Str.contains import_old (import_new +:+ t) = Str.contains import_old t.
Proof. reflexivity. Qed.

Lemma new_import_apart (k : nat) (t : string) :
  (k < 18)%nat →
  Str.startswith (import_new +:+ t) (Str.drop (S k) import_old) = false.
Proof. intros Hk. do 18 (destruct k as [|k]; [reflexivity|]). lia. Qed.

Lemma replace_from_cons (c : ascii) (s : string) :
  Str.replace_from import_old import_new 0 (String c s)
  = if Str.startswith (String c s) import_old
    then import_new +:+ Str.replace_from import_old import_new 18 s
    else String c (Str.replace_from import_old import_new 0 s).
Proof. done. Qed.

(** A tail of the old import at the head of the result was at the head of
    the text. *)
Lemma replace_keeps_head (u s : string) :
  (∀ k t, (k < String.length u)%nat →
          Str.startswith (import_new +:+ t) (Str.drop k u) = false) →
  Str.startswith (Str.replace_from import_old import_new 0 s) u = true →
  Str.startswith s u = true.
Proof.
  revert s. induction u as [|a u IH]; intros s Hu Hs; [done|].
  destruct s as [|c s]; [done|]. rewrite replace_from_cons in Hs.
  destruct (Str.startswith (String c s) import_old).
  { by rewrite (Hu 0%nat _ ltac:(simpl; lia)) in Hs. }
  cbn [Str.startswith] in *. destruct (decide (a = c)); [|done].
  apply IH; [|done]. intros k t Hk. apply (Hu (S k)). simpl. lia.
Qed.

Lemma replace_from_clean (s : string) (skip : nat) :
  Str.contains import_old (Str.replace_from import_old import_new skip s) = false.
Proof.
  revert skip. induction s as [|c s IH]; intros skip; [done|].
  destruct skip as [|skip]; [|apply IH].
  rewrite replace_from_cons.
  destruct (Str.startswith (String c s) import_old) eqn:Hhead.
  { by rewrite contains_after_new. }
  cbn [Str.contains]. rewrite IH, orb_false_r.
  destruct (Str.startswith (String c (Str.replace_from import_old import_new 0 s)) import_old)
    eqn:Hnew; [|done].
  rewrite <- Hhead. change import_old with (String "i" (Str.drop 1 import_old)) in *.
  cbn [Str.startswith] in *. destruct (decide ("i"%char = c)); [|done].
  symmetry. apply replace_keeps_head; [|done].
  intros k t Hk. rewrite <- (new_import_apart k t) by (simpl in Hk; lia).
  by destruct k.
Qed.

(** After the replacement the old import occurs nowhere. *)
Lemma replace_import_clean (s : string) :
  Str.contains import_old (Str.replace s import_old import_new) = false.
Proof. apply replace_from_clean. Qed.

Lemma replace_import_absent (s : string) :
  Str.contains import_old s = false → Str.replace s import_old import_new = s.
Proof.
  unfold Str.replace. change (Str.replace_from import_old import_new 0 s = s → _) with _.
  induction s as [|c s IH]; [done|]. cbn [Str.contains]. intros [Hh Ht]%orb_false_elim.
  rewrite replace_from_cons, Hh. f_equal. by apply IH.
Qed.

Lemma replace_import_twice (s : string) :
  Str.replace (Str.replace s import_old import_new) import_old import_new
  = Str.replace s import_old import_new.
Proof. apply replace_import_absent, replace_import_clean. Qed.

(** *** What the replacement is *)






(** The replacement brings in no carriage return. *)
Lemma replace_from_char (a : ascii) (s : string) (skip : nat) :
  Str.contains (String a "") import_new = false →
  Str.contains (String a "") s = false →
  Str.contains (String a "") (Str.replace_from import_old import_new skip s) = false.
Proof.
  intros Hnew. revert skip. induction s as [|c s IH]; intros skip; [done|].
  rewrite contains_char_cons. intros [Hc Hs]%orb_false_elim.
  destruct skip as [|skip]; [|by apply IH].
  rewrite replace_from_cons. destruct (Str.startswith (String c s) import_old).
  - rewrite contains_char_app, Hnew. by apply IH.
  - rewrite contains_char_cons, Hc. by apply IH.
Qed.

Lemma transformed_twice (c : string) : transformed (transformed c) = transformed c.
Proof.
  unfold transformed. rewrite read_write_newlines.
  - by rewrite replace_import_twice.
  - apply os_linesep_cases.
  - apply replace_from_char; [done|apply read_newlines_clean].
Qed.

(** One round of the loop of [transform_to_embeddable]. *)
Lemma transform_round (src : string) (w w1 : world) :
  (content ← read_file src;
   open_w src;; f_write src (Str.replace content import_old import_new)) w = (Ok tt, w1) →
  ∃ c, fs w !! parse_path src = Some (File c) ∧
       fs w1 = <[parse_path src := File (transformed c)]> (fs w).
Proof.
  intros Hrun. apply bind_ok_inv in Hrun as (c & w0 & Hrd & Hrun).
  apply bind_ok_inv in Hrun as ([] & w0' & Hop & Hwr).
  unfold read_file in Hrd.
  destruct (node_at (fs w) (parse_path src)) as [[c'|]|] eqn:Hn; [|done..].
  destruct (text_decodes c'); [|done].
  injection Hrd as <- <-. exists c'. split.
  - by destruct (parse_path src).
  - apply open_w_ok in Hop as ->. apply f_write_ok in Hwr as (c0 & Hc0 & ->).
    simpl in *. rewrite lookup_insert_eq in Hc0. injection Hc0 as <-.
    by rewrite insert_insert_eq.
Qed.

Lemma transform_files (srcs : list string) (w w' : world) :
  transform_to_embeddable srcs w = (Ok tt, w') →
  (∀ p, (∀ src, src ∈ srcs → parse_path src ≠ p) → fs w' !! p = fs w !! p) ∧
  (∀ src, src ∈ srcs →
     ∃ c, fs w !! parse_path src = Some (File c) ∧
          fs w' !! parse_path src = Some (File (transformed c))).
Proof.
  unfold transform_to_embeddable. revert w.
  induction srcs as [|src0 srcs IH]; intros w Hrun.
  { injection Hrun as <-. split; [done|]. by intros src Hin%not_elem_of_nil. }
  cbn [for_each] in Hrun. apply bind_ok_inv in Hrun as ([] & w1 & Hstep & Hrun).
  apply transform_round in Hstep as (c0 & Hc0 & Hfs1).
  destruct (IH _ Hrun) as [Hframe Hdone]. split.
  - intros p Hp. rewrite Hframe.
    + rewrite Hfs1, lookup_insert_ne; [done|]. apply Hp, list_elem_of_here.
    + intros src Hin. by apply Hp, list_elem_of_further.
  - assert (∀ src, src ∈ srcs →
              ∃ c, fs w !! parse_path src = Some (File c) ∧
                   fs w' !! parse_path src = Some (File (transformed c))) as Hrest.
    { intros src Hin. destruct (Hdone src Hin) as (c1 & Hc1 & Hc1').
      destruct (decide (parse_path src0 = parse_path src)) as [Heq|Hne].
      - exists c0. rewrite <- Heq in *. split; [done|].
        rewrite Hfs1, lookup_insert_eq in Hc1.
        assert (c1 = transformed c0) as -> by congruence.
        by rewrite transformed_twice in Hc1'.
      - exists c1. split; [|done]. by rewrite Hfs1, lookup_insert_ne in Hc1. }
    intros src [->|Hin]%elem_of_cons; [|by apply Hrest].
    destruct (decide (Exists (λ src, parse_path src = parse_path src0) srcs)) as [Hex|Hno].
    + apply Exists_exists in Hex as (src & Hin & Heq). rewrite <- Heq. by apply Hrest.
    + exists c0. split; [done|]. rewrite Hframe.
      * by rewrite Hfs1, lookup_insert_eq.
      * intros src Hin Heq. apply Hno, Exists_exists. eauto.
Qed.



End Transform.


(** ** The dispatch *)

Section Dispatch.
Context `{!Platform, !PluginVersions}.

(** C5: without a [kotlinc] on the PATH the run prints the error and leaves
    with status 1; the files are as they were and no child was started. *)
Theorem missing_compiler_exits (args : Namespace) (w : world) :
  shutil_which "kotlinc" = None →
  main args w = (Exit 1, complained no_kotlinc_message w).
Proof. intros Hw. unfold main. by rewrite Hw. Qed.

(** C4, amended: with a [kotlinc] on the PATH, the embeddable flag without a
    single version prints the usage message and leaves with status 1; the
    files are as they were and no child was started. *)
Theorem usage_error (args : Namespace) (w : world) (kotlinc : string) :
  shutil_which "kotlinc" = Some kotlinc →
  single_version args = None →
  single_version_embeddable args = true →
  main args w = (Exit 1, complained usage_message w).
Proof. intros Hw Hv He. unfold main. by rewrite Hw, Hv, He. Qed.

Lemma archives_succeeded (evs : list event) :
  Forall succeeded evs → archives evs = omap jar_output (ev_argv <$> evs).
Proof.
  induction 1 as [|e evs He _ IH]; [done|].
  unfold archives in *. cbn [omap list_omap fmap list_fmap]. rewrite IH.
  by rewrite decide_True.
Qed.

Lemma compile_plan_archives (kotlinc output build_dir : string) :
  omap jar_output (compile_plan kotlinc output build_dir) = [output].
Proof.
  unfold compile_plan, jar_command, javac. cbn [omap list_omap jar_output].
  rewrite decide_False by (by intros [_ ?]). by rewrite decide_True.
Qed.

Lemma target_plan_archives (kotlinc : string) (embeddable : bool) (version : string) :
  omap jar_output (target_plan kotlinc embeddable version)
  = [if embeddable then embeddable_jar version else standalone_jar version].
Proof. unfold target_plan. destruct embeddable; apply compile_plan_archives. Qed.

Lemma many_plan_archives (kotlinc : string) (versions : list string) :
  omap jar_output
    (concat ((λ version, target_plan kotlinc false version ++ target_plan kotlinc true version)
             <$> versions))
  = concat ((λ version, [standalone_jar version; embeddable_jar version]) <$> versions).
Proof.
  induction versions as [|v versions IH]; [done|].
  cbn [fmap list_fmap concat]. rewrite !omap_app, IH, !target_plan_archives. done.
Qed.

Lemma truthy_Some (version : string) : version ≠ "" → truthy (Some version) = Some version.
Proof. intros Hne. unfold truthy. by rewrite decide_False. Qed.

(** What a run that returns has started. *)
Lemma main_returns (args : Namespace) (w w' : world) :
  main args w = (Ok tt, w') →
  ∃ kotlinc evs, shutil_which "kotlinc" = Some kotlinc ∧
    procs w' = procs w ++ evs ∧ Forall succeeded evs ∧
    archives evs = omap jar_output (main_plan args (fs w)) ∧
    (truthy (single_version args) = None → single_version_embeddable args = false).
Proof.
  intros Hrun.
  destruct (main_cases args w) as [[_ Hm]|[(_ & _ & Hm)|Hf]]; [congruence..|].
  destruct Hf as (evs & Hp & _ & Hres). rewrite Hrun in Hp, Hres. simpl in *.
  destruct Hres as [Hplan Hs].
  destruct (shutil_which "kotlinc") as [kotlinc|] eqn:Hw.
  - exists kotlinc, evs. split; [done|]. split; [done|]. split; [done|].
    split; [by rewrite archives_succeeded, Hplan|].
    intros Ht. destruct (single_version_embeddable args) eqn:He; [|done].
    unfold main in Hrun. by rewrite Hw, Ht, He in Hrun.
  - unfold main in Hrun. by rewrite Hw in Hrun.
Qed.

(** C6, amended: a run that returns has started only children that
    succeeded; in the mode for many targets their archives are, for every
    version of the registry in turn, the standalone and the embeddable one;
    for a single version that is not the empty string, without the
    embeddable flag, it is the one standalone archive of that version. *)
Theorem build_outputs (args : Namespace) (w w' : world) :
  main args w = (Ok tt, w') →
  ∃ evs, procs w' = procs w ++ evs ∧ Forall succeeded evs ∧
    (truthy (single_version args) = None → many args = true →
     archives evs
     = concat ((λ version, [standalone_jar version; embeddable_jar version])
               <$> many_versions)) ∧
    (∀ version, single_version args = Some version → version ≠ "" →
     single_version_embeddable args = false →
     archives evs = [standalone_jar version]).
Proof.
  intros Hrun.
  destruct (main_returns _ _ _ Hrun) as (kotlinc & evs & Hw & Hp & Hs & Ha & He).
  exists evs. split; [done|]. split; [done|]. rewrite Ha. unfold main_plan. rewrite Hw.
  split.
  - intros Ht Hmany. rewrite Ht, (He Ht), Hmany. apply many_plan_archives.
  - intros version Hv Hne Hemb. rewrite Hv, (truthy_Some _ Hne), Hemb.
    apply (target_plan_archives kotlinc false).
Qed.

(** C9, amended: with a single version that is not the empty string the
    flag [--many] changes nothing; with a [kotlinc] on the PATH the run is
    the build of the one target of that version; if it returns, the one
    archive of that target was produced; and the run is not the usage
    error. *)
Theorem single_version_precedence (args : Namespace) (w : world) (version : string) :
  single_version args = Some version → version ≠ "" →
  (∀ b, main (with_many b args) w = main args w) ∧
  (∀ kotlinc, shutil_which "kotlinc" = Some kotlinc →
     main args w
     = (if single_version_embeddable args
        then compile_embeddable kotlinc (dependencies args) version
        else compile_standalone kotlinc (dependencies args) version) w) ∧
  (∀ w', main args w = (Ok tt, w') →
     ∃ evs, procs w' = procs w ++ evs ∧
       archives evs = [if single_version_embeddable args
                       then embeddable_jar version else standalone_jar version]) ∧
  main args w ≠ (Exit 1, complained usage_message w).
Proof.
  intros Hv Hne.
  assert (truthy (single_version args) = Some version) as Ht
    by (rewrite Hv; by apply truthy_Some).
  split; [|split; [|split]].
  - intros b. unfold main, with_many.
    cbn [dependencies many single_version single_version_embeddable].
    destruct (shutil_which "kotlinc"); [|done]. by rewrite Ht.
  - intros kotlinc Hw. unfold main. rewrite Hw, Ht. by destruct (single_version_embeddable args).
  - intros w' Hrun.
    destruct (main_returns _ _ _ Hrun) as (kotlinc & evs & Hw & Hp & _ & Ha & _).
    exists evs. split; [done|]. rewrite Ha. unfold main_plan. rewrite Hw, Ht.
    apply target_plan_archives.
  - intros Hm.
    destruct (main_cases args w) as [[_ Hm']|[(_ & Ht' & _)|Hf]].
    + rewrite Hm' in Hm. injection Hm as Hm. apply (inj (app _)) in Hm. discriminate Hm.
    + congruence.
    + destruct Hf as (evs & _ & _ & Hres). by rewrite Hm in Hres.
Qed.

(** C3, amended: a child that exits with a status other than 0 is reported
    on the error stream with the working directory and the command line,
    and with its captured output when capture was asked for, and the
    exception is raised again; in a whole run such a child is the last one
    started, and the run ends with its exception. *)
Theorem invocation_errors_are_fatal :
  (∀ (cmd : list string) (capture : bool) (w : world) (e : event),
     procs (run_process cmd capture w).2 = procs w ++ [e] → ev_status e ≠ 0 →
     ∃ out err after,
       os_exec (ev_cmd e) (fs w) = Exited (ev_status e) out err after ∧
       (run_process cmd capture w).1 =
         Raise (CalledProcessError (ev_cmd e) (ev_status e)
                  (if capture then Some (out, err) else None)) ∧
       stderr (run_process cmd capture w).2 =
         stderr w ++ ["In: " +:+ os_getcwd; "Command failed: " +:+ shell_line (ev_cmd e)] ++
         (if capture
          then ["stdout output:" +:+ Str.nl +:+ decode_utf8 out;
                "stderr output:" +:+ Str.nl +:+ decode_utf8 err]
          else [])) ∧
  (∀ (args : Namespace) (w : world) (evs0 evs1 : list event) (e : event),
     procs (main args w).2 = procs w ++ evs0 ++ e :: evs1 → ev_status e ≠ 0 →
     evs1 = [] ∧ (ev_argv <$> evs0 ++ [e]) `prefix_of` main_plan args (fs w) ∧
     ∃ x, (main args w).1 = Raise x ∧ reported e x (main args w).2).
Proof.
  split; [apply run_process_failure|].
  intros args w evs0 evs1 e Hp He.
  destruct (main_cases args w) as [[_ Hm]|[(_ & _ & Hm)|Hf]].
  - rewrite Hm in Hp. simpl in Hp. apply self_append in Hp. by destruct evs0.
  - rewrite Hm in Hp. simpl in Hp. apply self_append in Hp. by destruct evs0.
  - destruct (follows_failure _ _ _ _ _ _ Hf Hp He) as [-> Hx]. split; [done|].
    split; [|done]. destruct Hf as (evs & Hp' & Hpre & _).
    rewrite Hp' in Hp. apply (inj (app _)) in Hp. by subst evs.
Qed.

(** C8: when the packaging step returns, the Kotlin compiler, the Java
    compiler and then the archiver have run and succeeded, in this order;
    the archiver was asked for the one archive [output] with the classes,
    the manifest directory and the marker file; and nothing is left of the
    class directory.  The marker file, which the compile step wrote before,
    holds the name of the output, written as text: the name itself when it
    holds no line feed. *)
Theorem archive_packaging :
  (∀ (kotlinc build_dir tmp_src_dir : string) (srcs : list string) (version : Version)
     (classpath java_classpath output : string) (w w' : world),
     compile_to_jar kotlinc build_dir tmp_src_dir srcs version classpath java_classpath
       output w = (Ok tt, w') →
     (∃ evs, procs w' = procs w ++ evs ∧
        ev_argv <$> evs =
          [[kotlinc; "-J-Xmx2G"; "@" +:+ build_dir +:+ "/kotlin.args"];
           [javac; "@" +:+ build_dir +:+ "/java.args"];
           ["jar"; "cf"; output;
            "-C"; build_dir +:+ "/classes"; ".";
            "-C"; tmp_src_dir +:+ "/main/resources"; "META-INF";
            "-C"; tmp_src_dir +:+ "/main/resources"; "com/github/codeql/extractor.name"]] ∧
        Forall succeeded evs ∧ archives evs = [output]) ∧
     (∀ p, parse_path (build_dir +:+ "/classes") `prefix_of` p → fs w' !! p = None)) ∧
  (∀ (output build_dir version_str tmp_src_dir : string) (version : Version) (w w' : world),
     well_formed (fs w) →
     compile_sources output build_dir version_str w = (Ok (tmp_src_dir, version), w') →
     fs w' !! (parse_path (tmp_src_dir +:+ "/main/resources")
               ++ parse_path "com/github/codeql/extractor.name")
     = Some (File (write_newlines os_linesep output)) ∧
     (Str.contains Str.nl output = false →
      fs w' !! (parse_path (tmp_src_dir +:+ "/main/resources")
                ++ parse_path "com/github/codeql/extractor.name")
      = Some (File output))).
Proof.
  split.
  - intros kotlinc build_dir tmp_src_dir srcs version classpath java_classpath output w w' Hrun.
    split.
    + destruct (compile_to_jar_follows kotlinc build_dir tmp_src_dir srcs version classpath
                  java_classpath output w) as (evs & Hp & _ & Hres).
      rewrite Hrun in Hp, Hres. simpl in Hp, Hres. destruct Hres as [Hplan Hs].
      exists evs. split; [done|]. split; [done|]. split; [done|].
      rewrite archives_succeeded, Hplan by done. unfold jar_command.
      cbn [omap list_omap jar_output]. rewrite decide_False by (by intros [_ ?]).
      by rewrite decide_True.
    + unfold compile_to_jar in Hrun. cbv zeta in Hrun.
      repeat (apply bind_ok_inv in Hrun as (? & ? & _ & Hrun)).
      apply rmtree_ok in Hrun as [_ ->]. intros p Hp. simpl.
      by rewrite lookup_remove_tree, decide_True.
  - intros output build_dir version_str tmp_src_dir version w w' Hwf Hrun.
    destruct (compile_sources_tree _ _ _ _ _ _ _ Hwf Hrun) as (_ & _ & _ & _ & _ & Hmark).
    rewrite (parse_path_app tmp_src_dir "main/resources"), <- (assoc_L (++)).
    split; [done|]. intros Hn. rewrite <- (write_newlines_none os_linesep output Hn).
    done.
Qed.

End Dispatch.

Lemma archive_packaging_witness :
  (@compile_to_jar (Demo.platform true 0) Demo.registry "/usr/bin/kotlinc" "deps" "src"
     [] 1%nat "" "" "out.jar" Demo.start
   = (Ok tt, (@compile_to_jar (Demo.platform true 0) Demo.registry "/usr/bin/kotlinc" "deps"
                "src" [] 1%nat "" "" "out.jar" Demo.start).2) ∧
   ∀ p, parse_path ("deps" +:+ "/classes") `prefix_of` p →
        fs (@compile_to_jar (Demo.platform true 0) Demo.registry "/usr/bin/kotlinc" "deps"
              "src" [] 1%nat "" "" "out.jar" Demo.start).2 !! p = None) ∧
  (well_formed (fs Demo.start) ∧
   @compile_sources (Demo.platform true 0) Demo.registry "out.jar" "build" "1.5.0" Demo.start
   = (Ok ("build/temp_src", 1%nat),
      (@compile_sources (Demo.platform true 0) Demo.registry "out.jar" "build" "1.5.0" Demo.start).2) ∧
   fs (@compile_sources (Demo.platform true 0) Demo.registry "out.jar" "build" "1.5.0" Demo.start).2
     !! (parse_path ("build/temp_src" +:+ "/main/resources")
         ++ parse_path "com/github/codeql/extractor.name")
   = Some (File "out.jar")).
Proof.
  destruct (@archive_packaging (Demo.platform true 0) Demo.registry) as [Hjar Hmark].
  assert (@compile_to_jar (Demo.platform true 0) Demo.registry "/usr/bin/kotlinc" "deps" "src"
            [] 1%nat "" "" "out.jar" Demo.start
          = (Ok tt, (@compile_to_jar (Demo.platform true 0) Demo.registry "/usr/bin/kotlinc"
                       "deps" "src" [] 1%nat "" "" "out.jar" Demo.start).2)) as H1
    by (apply outcome_eta; vm_compute; reflexivity).
  assert (well_formed (fs Demo.start)) as Hwf
    by (apply (bool_decide_unpack _); vm_compute; exact I).
  assert (@compile_sources (Demo.platform true 0) Demo.registry "out.jar" "build" "1.5.0" Demo.start
          = (Ok ("build/temp_src", 1%nat),
             (@compile_sources (Demo.platform true 0) Demo.registry "out.jar" "build" "1.5.0" Demo.start).2)) as H2
    by (apply outcome_eta; vm_compute; reflexivity).
  split.
  - split; [exact H1|]. exact (proj2 (Hjar _ _ _ _ _ _ _ _ _ _ H1)).
  - split; [exact Hwf|]. split; [exact H2|].
    exact (proj2 (Hmark _ _ _ _ _ _ _ Hwf H2) eq_refl).
Defined.

Lemma missing_compiler_exits_witness :
  @shutil_which (Demo.platform false 0) "kotlinc" = None ∧
  @main (Demo.platform false 0) Demo.registry (Demo.arguments true None false) Demo.start
  = (Exit 1, complained no_kotlinc_message Demo.start).
Proof. split; [reflexivity|]. by apply missing_compiler_exits. Defined.

Lemma usage_error_witness :
  @shutil_which (Demo.platform true 0) "kotlinc" = Some "/usr/bin/kotlinc" ∧
  single_version (Demo.arguments false None true) = None ∧
  single_version_embeddable (Demo.arguments false None true) = true ∧
  @main (Demo.platform true 0) Demo.registry (Demo.arguments false None true) Demo.start
  = (Exit 1, complained usage_message Demo.start).
Proof.
  split; [reflexivity|]. split; [reflexivity|]. split; [reflexivity|].
  by apply (@usage_error (Demo.platform true 0) Demo.registry _ _ "/usr/bin/kotlinc").
Defined.

(** C4 as stated fails where no [kotlinc] is installed: the run leaves with
    the message of the missing compiler, not with the usage message. *)
Lemma usage_error_counterexample :
  single_version (Demo.arguments false None true) = None ∧
  single_version_embeddable (Demo.arguments false None true) = true ∧
  stderr (@main (Demo.platform false 0) Demo.registry
            (Demo.arguments false None true) Demo.start).2 = [no_kotlinc_message] ∧
  usage_message ∉ [no_kotlinc_message].
Proof.
  split; [reflexivity|]. split; [reflexivity|]. split; [reflexivity|].
  intros Hin. apply list_elem_of_singleton in Hin. discriminate Hin.
Qed.

Lemma invocation_errors_are_fatal_witness :
  (procs (@run_process (Demo.platform true 1) Demo.version_query true Demo.start).2
   = procs Demo.start ++ [Event Demo.version_query (Argv Demo.version_query) 1] ∧
   ev_status (Event Demo.version_query (Argv Demo.version_query) 1) ≠ 0 ∧
   ∃ out err after,
     @os_exec (Demo.platform true 1) (Argv Demo.version_query) (fs Demo.start)
     = Exited 1 out err after ∧
     (@run_process (Demo.platform true 1) Demo.version_query true Demo.start).1
     = Raise (CalledProcessError (Argv Demo.version_query) 1 (Some (out, err))) ∧
     stderr (@run_process (Demo.platform true 1) Demo.version_query true Demo.start).2
     = stderr Demo.start ++
       ["In: " +:+ @os_getcwd (Demo.platform true 1);
        "Command failed: " +:+ shell_line (Argv Demo.version_query)] ++
       ["stdout output:" +:+ Str.nl +:+ @decode_utf8 (Demo.platform true 1) out;
        "stderr output:" +:+ Str.nl +:+ @decode_utf8 (Demo.platform true 1) err]) ∧
  (procs (@main (Demo.platform true 1) Demo.registry
            (Demo.arguments false (Some "1.5.0") false) Demo.start).2
   = procs Demo.start ++ [] ++ Demo.kotlinc_failure :: [] ∧
   ev_status Demo.kotlinc_failure ≠ 0 ∧
   ∃ x, (@main (Demo.platform true 1) Demo.registry
           (Demo.arguments false (Some "1.5.0") false) Demo.start).1 = Raise x ∧
        @reported (Demo.platform true 1) Demo.kotlinc_failure x
          (@main (Demo.platform true 1) Demo.registry
             (Demo.arguments false (Some "1.5.0") false) Demo.start).2).
Proof.
  destruct (@invocation_errors_are_fatal (Demo.platform true 1) Demo.registry) as [Hrun Hmain].
  assert (procs (@run_process (Demo.platform true 1) Demo.version_query true Demo.start).2
          = procs Demo.start ++ [Event Demo.version_query (Argv Demo.version_query) 1]) as H1
    by (vm_compute; reflexivity).
  assert (procs (@main (Demo.platform true 1) Demo.registry
                   (Demo.arguments false (Some "1.5.0") false) Demo.start).2
          = procs Demo.start ++ [] ++ Demo.kotlinc_failure :: []) as H2
    by (vm_compute; reflexivity).
  assert (ev_status (Event Demo.version_query (Argv Demo.version_query) 1) ≠ 0) as H3
    by discriminate.
  assert (ev_status Demo.kotlinc_failure ≠ 0) as H4 by discriminate.
  split.
  - split; [exact H1|]. split; [exact H3|]. exact (Hrun _ _ _ _ H1 H3).
  - split; [exact H2|]. split; [exact H4|].
    exact (proj2 (proj2 (Hmain _ _ _ _ _ H2 H4))).
Defined.

(** C3 as stated fails where an archive of an earlier build lies at the
    output path: the compiler fails, the run raises, and the archive is
    still there. *)
Lemma invocation_errors_are_fatal_counterexample :
  (@main (Demo.platform true 1) Demo.registry
     (Demo.arguments false (Some "1.5.0") false) Demo.stale).1
  = Raise (CalledProcessError (ev_cmd Demo.kotlinc_failure) 1 None) ∧
  procs (@main (Demo.platform true 1) Demo.registry
           (Demo.arguments false (Some "1.5.0") false) Demo.stale).2
  = [Demo.kotlinc_failure] ∧
  fs (@main (Demo.platform true 1) Demo.registry
        (Demo.arguments false (Some "1.5.0") false) Demo.stale).2
    !! parse_path (standalone_jar "1.5.0")
  = Some (File "earlier build").
Proof. vm_compute. repeat split; reflexivity. Qed.

Lemma build_outputs_witness :
  @main (Demo.platform true 0) Demo.registry (Demo.arguments true None false) Demo.start
  = (Ok tt, (@main (Demo.platform true 0) Demo.registry
               (Demo.arguments true None false) Demo.start).2) ∧
  ∃ evs,
    procs (@main (Demo.platform true 0) Demo.registry
             (Demo.arguments true None false) Demo.start).2 = procs Demo.start ++ evs ∧
    Forall succeeded evs ∧
    (truthy (single_version (Demo.arguments true None false)) = None →
     many (Demo.arguments true None false) = true →
     archives evs
     = concat ((λ version, [standalone_jar version; embeddable_jar version])
               <$> @many_versions Demo.registry)) ∧
    (∀ version, single_version (Demo.arguments true None false) = Some version →
     version ≠ "" →
     single_version_embeddable (Demo.arguments true None false) = false →
     archives evs = [standalone_jar version]).
Proof.
  assert (@main (Demo.platform true 0) Demo.registry (Demo.arguments true None false) Demo.start
          = (Ok tt, (@main (Demo.platform true 0) Demo.registry
                       (Demo.arguments true None false) Demo.start).2)) as Hrun
    by (apply outcome_eta; vm_compute; reflexivity).
  split; [exact Hrun|]. exact (build_outputs _ _ _ Hrun).
Defined.

(** C6 as stated fails for the empty version string: the archive is named
    from the version [get_single_version] finds, not from the one given. *)
Lemma build_outputs_counterexample :
  single_version (Demo.arguments false (Some "") false) = Some "" ∧
  (@main (Demo.platform true 0) Demo.registry
     (Demo.arguments false (Some "") false) Demo.start).1 = Ok tt ∧
  archives (procs (@main (Demo.platform true 0) Demo.registry
                     (Demo.arguments false (Some "") false) Demo.start).2)
  = ["codeql-extractor-kotlin-standalone-1.5.0.jar"] ∧
  standalone_jar "" = "codeql-extractor-kotlin-standalone-.jar".
Proof. vm_compute. repeat split; reflexivity. Qed.

Lemma single_version_precedence_witness :
  single_version (Demo.arguments true (Some "1.6.0") true) = Some "1.6.0" ∧
  "1.6.0" ≠ "" ∧
  ∀ b, @main (Demo.platform true 0) Demo.registry
         (with_many b (Demo.arguments true (Some "1.6.0") true)) Demo.start
       = @main (Demo.platform true 0) Demo.registry
           (Demo.arguments true (Some "1.6.0") true) Demo.start.
Proof.
  split; [reflexivity|]. split; [discriminate|].
  exact (proj1 (@single_version_precedence (Demo.platform true 0) Demo.registry
                  (Demo.arguments true (Some "1.6.0") true) Demo.start "1.6.0"
                  eq_refl ltac:(discriminate))).
Defined.

(** C9 as stated fails for the empty version string: with [--many] all four
    targets are built, without it the one target of the version that
    [get_single_version] finds. *)
Lemma single_version_precedence_counterexample :
  single_version (Demo.arguments true (Some "") false) = Some "" ∧
  (@main (Demo.platform true 0) Demo.registry
     (Demo.arguments true (Some "") false) Demo.start).1 = Ok tt ∧
  archives (procs (@main (Demo.platform true 0) Demo.registry
                     (Demo.arguments true (Some "") false) Demo.start).2)
  = ["codeql-extractor-kotlin-standalone-1.5.0.jar";
     "codeql-extractor-kotlin-embeddable-1.5.0.jar";
     "codeql-extractor-kotlin-standalone-1.6.0.jar";
     "codeql-extractor-kotlin-embeddable-1.6.0.jar"] ∧
  archives (procs (@main (Demo.platform true 0) Demo.registry
                     (with_many false (Demo.arguments true (Some "") false)) Demo.start).2)
  = ["codeql-extractor-kotlin-standalone-1.5.0.jar"].
Proof. vm_compute. repeat split; reflexivity. Qed.

(** * Further properties *)

(** ** Dependencies *)

Section Dependencies.
Context `{!Platform, !PluginVersions}.

(** X1: the class path is the paths of the archives of the bases, in their
    order, joined by the path separator, when all of them are files; at the
    first base whose archive is no file the call raises and names it.  The
    world is left as it was. *)
Theorem classpath_of_bases (path : string) (bases : list string) (w : world) :
  (Forall (λ base, jar_present (fs w) path base = true) bases →
   bases_to_classpath path bases w
   = (Ok (Str.join os_pathsep ((λ base, path +:+ "/" +:+ base +:+ ".jar") <$> bases)), w)) ∧
  (∀ found base rest, bases = found ++ base :: rest →
   Forall (λ base, jar_present (fs w) path base = true) found →
   jar_present (fs w) path base = false →
   bases_to_classpath path bases w
   = (Raise (Exception ("Cannot find jar file at " +:+ path +:+ "/" +:+ base +:+ ".jar")), w)).
Proof.
  split.
  - intros Hall. unfold bases_to_classpath.
    by rewrite (bind_ok _ _ _ _ _ (find_jars_present _ _ _ Hall)).
  - intros found base rest -> Hfound Hb. unfold bases_to_classpath.
    by rewrite (bind_raise _ _ _ _ _ (find_jars_missing _ _ rest _ _ Hfound Hb)).
Qed.

(** X2: when the archive of one of the dependencies is missing, the compile
    step raises before it touches a file or starts a process. *)
Theorem missing_dependency_aborts (kotlinc : string) (jars java_jars : list string)
    (dependency_folder : string) (transform : list string → M unit)
    (output build_dir version_str : string) (w : world) :
  Exists (λ base, jar_present (fs w) dependency_folder base = false) (jars ++ java_jars) →
  ∃ base, base ∈ jars ++ java_jars ∧
    jar_present (fs w) dependency_folder base = false ∧
    compile kotlinc jars java_jars dependency_folder transform output build_dir version_str w
    = (Raise (Exception ("Cannot find jar file at " +:+ jar_path dependency_folder base)), w).
Proof.
  intros Hex. unfold compile, bases_to_classpath.
  destruct (first_missing (fs w) dependency_folder jars)
    as [Hall|(found & base & rest & -> & Hf & Hb)].
  - destruct (first_missing (fs w) dependency_folder java_jars)
      as [Hall'|(found & base & rest & -> & Hf & Hb)].
    + apply Exists_app in Hex as [Hex|Hex]; apply Exists_exists in Hex as (b & Hin & Hb).
      * rewrite Forall_forall in Hall. by rewrite (Hall b Hin) in Hb.
      * rewrite Forall_forall in Hall'. by rewrite (Hall' b Hin) in Hb.
    + exists base. split; [set_solver|]. split; [done|].
      rewrite (bind_ok _ _ _ _ _ (bind_ok _ _ _ _ _ (find_jars_present _ _ _ Hall))).
      cbn [mret M_ret].
      by rewrite (bind_raise _ _ _ _ _ (bind_raise _ _ _ _ _
                    (find_jars_missing _ _ rest _ _ Hf Hb))).
  - exists base. split; [set_solver|]. split; [done|].
    by rewrite (bind_raise _ _ _ _ _ (bind_raise _ _ _ _ _
                  (find_jars_missing _ _ rest _ _ Hf Hb))).
Qed.

End Dependencies.

(** ** Whole runs *)

Section Runs.
Context `{!Platform, !PluginVersions}.

Lemma omap_prefix {A B} (f : A → option B) (l1 l2 : list A) :
  l1 `prefix_of` l2 → omap f l1 `prefix_of` omap f l2.
Proof. intros [k ->]. rewrite omap_app. by apply prefix_app_r. Qed.

Lemma archives_app (evs1 evs2 : list event) :
  archives (evs1 ++ evs2) = archives evs1 ++ archives evs2.
Proof. apply omap_app. Qed.

(** Whatever the outcome, the archives produced are the first ones of the
    plan. *)
Lemma follows_archives {A} (cmds : list (list string)) (w : world) (res : outcome A * world) :
  follows cmds w res →
  ∃ evs, procs res.2 = procs w ++ evs ∧ archives evs `prefix_of` omap jar_output cmds.
Proof.
  intros (evs & Hp & Hpre & Hres). exists evs. split; [done|].
  assert (Forall succeeded evs → archives evs `prefix_of` omap jar_output cmds) as Hgood.
  { intros Hs. rewrite archives_succeeded by done. by apply omap_prefix. }
  destruct res.1 as [a|x|c]; [by apply Hgood; destruct Hres| |done].
  destruct Hres as [Hs|(evs0 & e & -> & Hs & He & _)]; [by apply Hgood|].
  rewrite archives_app. unfold archives at 2. cbn [omap list_omap].
  rewrite decide_False by done. rewrite (right_id_L [] (++)), archives_succeeded by done.
  apply omap_prefix. etrans; [|exact Hpre]. rewrite fmap_app. by apply prefix_app_r.
Qed.

(** X3: in the mode for many targets, whatever the outcome of the run, the
    archives it has produced are the first ones of the list that goes through
    the versions of the registry in order, the standalone archive of a
    version before its embeddable one: no target is skipped and none is built
    after one that failed. *)
Theorem many_archives_in_order (args : Namespace) (w : world) :
  truthy (single_version args) = None → many args = true →
  ∃ evs, procs (main args w).2 = procs w ++ evs ∧
    archives evs `prefix_of`
      concat ((λ version, [standalone_jar version; embeddable_jar version]) <$> many_versions).
Proof.
  intros Ht Hmany.
  destruct (main_cases args w) as [[_ Hm]|[(_ & _ & Hm)|Hf]].
  - exists []. rewrite Hm. simpl. rewrite (right_id_L [] (++)). split; [done|apply prefix_nil].
  - exists []. rewrite Hm. simpl. rewrite (right_id_L [] (++)). split; [done|apply prefix_nil].
  - destruct (follows_archives _ _ _ Hf) as (evs & Hp & Hpre). exists evs. split; [done|].
    unfold main_plan in Hpre. rewrite Ht, Hmany in Hpre.
    destruct (shutil_which "kotlinc") as [kotlinc|];
      [|apply prefix_nil_inv in Hpre as ->; apply prefix_nil].
    destruct (single_version_embeddable args);
      [apply prefix_nil_inv in Hpre as ->; apply prefix_nil|].
    by rewrite many_plan_archives in Hpre.
Qed.

(** X4: once [parse_args] has returned its namespace, the script leaves
    through [sys.exit] only with status 1, and only for a missing compiler or
    for the embeddable flag without a version; it has then printed the one
    message and done nothing else. *)
Theorem exits_only_early (args : Namespace) (w w' : world) (code : Z) :
  main args w = (Exit code, w') →
  code = 1 ∧
  ((shutil_which "kotlinc" = None ∧ w' = complained no_kotlinc_message w) ∨
   (is_Some (shutil_which "kotlinc") ∧ single_version_embeddable args = true ∧
    truthy (single_version args) = None ∧ w' = complained usage_message w)).
Proof.
  intros Hrun.
  destruct (main_cases args w) as [[Hw Hm]|[(He & Ht & Hm)|Hf]].
  - rewrite Hm in Hrun. injection Hrun as <- <-. split; [done|]. by left.
  - rewrite Hm in Hrun. injection Hrun as <- <-. split; [done|].
    destruct (shutil_which "kotlinc") as [kotlinc|] eqn:Hw.
    + right. eauto.
    + left. split; [done|].
      assert (main args w = (Exit 1, complained no_kotlinc_message w)) as Hm'
        by (unfold main; by rewrite Hw).
      congruence.
  - destruct Hf as (evs & _ & _ & Hres). by rewrite Hrun in Hres.
Qed.

(** X5: with a [kotlinc] on the PATH and without a version, the embeddable
    flag and [--many], a run that returns has built the standalone target of
    the version that [get_single_version] gave, and nothing else: that call
    gave a version, the children of the run are those of this one target,
    all of them succeeded, and the one archive is the standalone archive of
    that version. *)
Theorem default_build (args : Namespace) (w w' : world) (kotlinc : string) :
  shutil_which "kotlinc" = Some kotlinc →
  truthy (single_version args) = None →
  single_version_embeddable args = false →
  many args = false →
  main args w = (Ok tt, w') →
  ∃ version evs, get_single_version (fs w) = inr version ∧
    procs w' = procs w ++ evs ∧
    ev_argv <$> evs = target_plan kotlinc false version ∧
    Forall succeeded evs ∧
    archives evs = [standalone_jar version].
Proof.
  intros Hw Ht He Hmany Hrun.
  destruct (get_single_version (fs w)) as [e|version] eqn:Hv.
  { unfold main in Hrun. by rewrite Hw, Ht, He, Hmany, Hv in Hrun. }
  destruct (main_cases args w) as [[_ Hm]|[(_ & _ & Hm)|Hf]]; [congruence..|].
  destruct Hf as (evs & Hp & _ & Hres). rewrite Hrun in Hp, Hres. simpl in Hp, Hres.
  destruct Hres as [Hplan Hs]. unfold main_plan in Hplan.
  rewrite Hw, Ht, He, Hmany, Hv in Hplan.
  exists version, evs. split; [done|]. split; [done|]. split; [done|]. split; [done|].
  rewrite archives_succeeded, Hplan by done. apply (target_plan_archives kotlinc false).
Qed.

End Runs.

(** ** Names *)

Section Names.

Lemma length_app_str (a b : string) :
  String.length (a +:+ b) = (String.length a + String.length b)%nat.
Proof. induction a as [|x a IH]; [done|]. rewrite app_cons. simpl. by rewrite IH. Qed.

Lemma app_inj_r (a b s : string) : a +:+ s = b +:+ s → a = b.
Proof.
  revert b. induction a as [|x a IH]; intros [|y b] Heq; [done|..].
  - apply (f_equal String.length) in Heq. rewrite !length_app_str in Heq.
    simpl in Heq. lia.
  - apply (f_equal String.length) in Heq. rewrite !length_app_str in Heq.
    simpl in Heq. lia.
  - rewrite !app_cons in Heq. injection Heq as -> Heq. f_equal. by apply IH.
Qed.

Lemma components_named (name v : string) :
  Str.contains "/" name = false →
  ∃ h t, components v = h :: t ∧ components (name +:+ v) = (name +:+ h) :: t.
Proof.
  intros Hn. induction name as [|c name IH].
  - destruct (components v) as [|h t] eqn:Hc; [by destruct (components_nonempty v)|].
    by exists h, t.
  - rewrite contains_char_cons in Hn. apply orb_false_elim in Hn as [Hc Hn].
    destruct (IH Hn) as (h & t & Hv & Hnv). exists h, t. split; [done|].
    rewrite app_cons. cbn [components]. rewrite Hnv.
    apply bool_decide_eq_false in Hc. by rewrite decide_False by done.
Qed.

Lemma build_dirs_apart (v v' : string) :
  ¬ parse_path ("build_standalone_" +:+ v) `prefix_of` parse_path ("build_embeddable_" +:+ v').
Proof.
  destruct (components_named "build_standalone_" v eq_refl) as (h & t & _ & Hs).
  destruct (components_named "build_embeddable_" v' eq_refl) as (h' & t' & _ & He).
  unfold parse_path. rewrite Hs, He. cbn [List.filter].
  assert (∀ x, keep_component ("build_standalone_" +:+ x) = true) as Hk1.
  { intros x. apply bool_decide_eq_true. split; intros Heq; discriminate Heq. }
  assert (∀ x, keep_component ("build_embeddable_" +:+ x) = true) as Hk2.
  { intros x. apply bool_decide_eq_true. split; intros Heq; discriminate Heq. }
  rewrite Hk1, Hk2. intros Heq%prefix_cons_inv_1.
  apply (f_equal (String.get 6)) in Heq. discriminate Heq.
Qed.

(** X6: two targets never share an archive: the name of the archive tells
    the version and the kind; and the path of the build directory of a
    standalone build is never, component by component, the beginning of the
    path of the build directory of an embeddable build. *)
Theorem archive_names_distinct :
  (∀ v v', standalone_jar v = standalone_jar v' → v = v') ∧
  (∀ v v', embeddable_jar v = embeddable_jar v' → v = v') ∧
  (∀ v v', standalone_jar v ≠ embeddable_jar v') ∧
  (∀ v v', ¬ parse_path ("build_standalone_" +:+ v)
             `prefix_of` parse_path ("build_embeddable_" +:+ v')).
Proof.
  split; [|split; [|split]].
  - intros v v' Heq. unfold standalone_jar in Heq.
    apply (inj (String.app _)) in Heq. by apply app_inj_r in Heq.
  - intros v v' Heq. unfold embeddable_jar in Heq.
    apply (inj (String.app _)) in Heq. by apply app_inj_r in Heq.
  - intros v v' Heq. apply (f_equal (String.get 24)) in Heq. discriminate Heq.
  - apply build_dirs_apart.
Qed.

End Names.

(** ** The transform again *)

Section TransformAgain.
Context `{!Platform, !PluginVersions}.

(** X7: the embeddable transform leaves to a file without the old import
    its text, written anew as text: the content is the same when it held no
    carriage return and the platform ends its lines with a line feed.  Doing
    the transform a second time changes nothing. *)
Theorem transform_idempotent (srcs : list string) (w w1 : world) :
  transform_to_embeddable srcs w = (Ok tt, w1) →
  (∀ src c, src ∈ srcs → fs w !! parse_path src = Some (File c) →
     Str.contains "import com.intellij" (read_newlines c) = false →
     fs w1 !! parse_path src = Some (File (write_newlines os_linesep (read_newlines c))) ∧
     (platform_system ≠ "Windows" → Str.contains (String cr "") c = false →
      fs w1 !! parse_path src = Some (File c))) ∧
  (∀ w2, transform_to_embeddable srcs w1 = (Ok tt, w2) → fs w2 = fs w1).
Proof.
  intros Hrun. destruct (transform_files _ _ _ Hrun) as [Hframe Hdone]. split.
  - intros src c Hin Hc Hclean. destruct (Hdone src Hin) as (c' & Hc' & Hnew).
    rewrite Hc in Hc'. injection Hc' as <-. unfold transformed in Hnew.
    rewrite (replace_import_absent _ Hclean) in Hnew. split; [done|].
    intros Hp Hcr. by rewrite Hnew, os_linesep_elsewhere, read_newlines_plain.
  - intros w2 Hrun2. destruct (transform_files _ _ _ Hrun2) as [Hframe2 Hdone2].
    apply map_eq. intros p.
    destruct (decide (Exists (λ src, parse_path src = p) srcs)) as [Hex|Hno].
    + apply Exists_exists in Hex as (src & Hin & <-).
      destruct (Hdone src Hin) as (c & _ & Hc1). destruct (Hdone2 src Hin) as (c1 & Hc1' & Hc2).
      rewrite Hc1 in Hc1'. rewrite Hc2, Hc1.
      assert (c1 = transformed c) as -> by congruence.
      by rewrite transformed_twice.
    + apply Hframe2. intros src Hin Heq. apply Hno, Exists_exists. eauto.
Qed.

End TransformAgain.

(** ** Argument files again *)

Section ArgLines.
Context `{!Platform}.

Lemma str_count_app (c : ascii) (a b : string) :
  str_count c (a +:+ b) = (str_count c a + str_count c b)%nat.
Proof. induction a as [|x a IH]; [done|]. rewrite app_cons. simpl. rewrite IH. lia. Qed.

Lemma str_count_absent (c : ascii) (s : string) :
  Str.contains (String c "") s = false → str_count c s = 0%nat.
Proof.
  induction s as [|a s IH]; [done|]. rewrite contains_char_cons.
  intros [Ha Hs]%orb_false_elim. simpl. rewrite (IH Hs).
  apply bool_decide_eq_false in Ha. by rewrite decide_False by done.
Qed.

Lemma str_count_slash (s : string) :
  str_count (ascii_of_nat 10) (str_map slash s) = str_count (ascii_of_nat 10) s.
Proof.
  induction s as [|a s IH]; [done|]. simpl. rewrite IH. f_equal.
  unfold slash. destruct (decide (a = "\"%char)) as [->|]; done.
Qed.

Lemma arg_line_one (arg : string) :
  Str.contains Str.nl arg = false → str_count (ascii_of_nat 10) (arg_line arg) = 1%nat.
Proof.
  intros Hn. unfold arg_line. rewrite !str_count_app, replace_backslash, str_count_slash.
  by rewrite (str_count_absent _ _ Hn).
Qed.

Lemma str_count_written (s : string) :
  str_count lf (write_newlines os_linesep s) = str_count lf s.
Proof.
  induction s as [|c s IH]; [done|]. cbn [write_newlines]. rewrite str_count_app, IH.
  simpl. destruct (decide (c = lf)) as [->|Hc].
  - by destruct os_linesep_cases as [-> | ->].
  - simpl. by rewrite decide_False by done.
Qed.

(** X8: when no argument holds a single quote or a line break, the argument
    file has as many lines as there are arguments. *)
Theorem arg_file_lines (arg_file : string) (args : list string) (w w1 : world) :
  open_w arg_file w = (Ok tt, w1) →
  Forall (λ a, Str.contains "'" a = false ∧ Str.contains Str.nl a = false) args →
  ∃ content,
    fs (write_arg_file arg_file args w).2 !! parse_path arg_file = Some (File content) ∧
    str_count (ascii_of_nat 10) content = length args.
Proof.
  intros Hopen Hall.
  rewrite (write_arg_file_plain _ _ _ _ Hopen) by (eapply Forall_impl; [done|by intros a []]).
  eexists. split; [simpl; apply lookup_insert_eq|].
  change (ascii_of_nat 10) with lf. rewrite str_count_written.
  induction Hall as [|a args [_ Ha] _ IH]; [done|].
  cbn [fmap list_fmap Str.concat length].
  rewrite str_count_app, IH. change lf with (ascii_of_nat 10). by rewrite arg_line_one.
Qed.

End ArgLines.

(** ** Starting a child *)

Section Children.
Context `{!Platform, !PluginVersions}.

Lemma quote_all (cmd : list string) (w : world) :
  Forall (λ a, batch_refused a = false) cmd →
  map_M quote_for_batch cmd w = (Ok (batch_quoted <$> cmd), w).
Proof.
  induction 1 as [|a cmd Ha _ IH]; [done|].
  cbn [map_M]. rewrite bind_unfold.
  assert (quote_for_batch a w = (Ok (batch_quoted a), w)) as ->.
  { unfold quote_for_batch, batch_quoted, batch_refused in *.
    destruct (Str.contains ";" a || Str.contains "=" a); [|done].
    simpl in Ha. by rewrite Ha. }
  by rewrite bind_unfold, IH.
Qed.

Lemma quote_refused (cmd : list string) (w : world) :
  Exists (λ a, batch_refused a = true) cmd →
  map_M quote_for_batch cmd w
  = (Raise (Exception "Need to quote something containing a quote"), w).
Proof.
  induction cmd as [|a cmd IH]; intros Hex; [by apply Exists_nil in Hex|].
  cbn [map_M]. rewrite bind_unfold.
  destruct (batch_refused a) eqn:Ha.
  - assert (quote_for_batch a w
            = (Raise (Exception "Need to quote something containing a quote"), w)) as ->;
      [|done].
    unfold quote_for_batch, batch_refused in *.
    apply andb_true_iff in Ha as [-> ->]. done.
  - assert (quote_for_batch a w = (Ok (batch_quoted a), w)) as ->.
    { unfold quote_for_batch, batch_quoted, batch_refused in *.
      destruct (Str.contains ";" a || Str.contains "=" a); [|done].
      simpl in Ha. by rewrite Ha. }
    rewrite bind_unfold, IH; [done|].
    apply Exists_cons in Hex as [Hex|Hex]; [congruence|done].
Qed.

(** X9: off Windows the system gets the argument vector as it is.  A child
    that exits with status 0 leaves the error stream alone; a program that
    cannot be found raises [FileNotFoundError] without the report of a failed
    command, and no child is on record. *)
Theorem run_process_elsewhere (cmd : list string) (capture : bool) (w : world) :
  is_windows = false →
  (os_exec (Argv cmd) (fs w) = NoSuchProgram →
   run_process cmd capture w
   = (Raise (FileNotFoundError (default "" (head cmd))),
      World (fs w) (stdout w ++ ["Running command: " +:+ shlex_join cmd]) (stderr w)
        (procs w))) ∧
  (∀ out err after, os_exec (Argv cmd) (fs w) = Exited 0 out err after →
   run_process cmd capture w
   = (Ok tt,
      World after (stdout w ++ ["Running command: " +:+ shlex_join cmd]) (stderr w)
        (procs w ++ [Event cmd (Argv cmd) 0]))).
Proof.
  intros Hwin. unfold run_process. rewrite bind_unfold. cbn [print].
  rewrite bind_unfold, Hwin. cbn [mret M_ret]. unfold try_except, subprocess_run. cbn [fs].
  split.
  - by intros ->.
  - by intros out err after ->.
Qed.

(** X10: on Windows the system gets one line, the arguments joined by
    blanks, those with a semicolon or an equals sign in double quotes; when
    such an argument holds a double quote itself, the call raises before any
    child is started. *)
Theorem run_process_windows (cmd : list string) (capture : bool) (w : world) :
  is_windows = true →
  (Exists (λ a, batch_refused a = true) cmd →
   run_process cmd capture w
   = (Raise (Exception "Need to quote something containing a quote"),
      World (fs w) (stdout w ++ ["Running command: " +:+ shlex_join cmd]) (stderr w)
        (procs w))) ∧
  (Forall (λ a, batch_refused a = false) cmd →
   ∀ out err after,
     os_exec (Shell (Str.join " " (batch_quoted <$> cmd))) (fs w) = Exited 0 out err after →
     run_process cmd capture w
     = (Ok tt,
        World after
          (stdout w ++ ["Running command: " +:+ shlex_join cmd] ++
           ["Converted to Windows command: " +:+ Str.join " " (batch_quoted <$> cmd)])
          (stderr w)
          (procs w ++ [Event cmd (Shell (Str.join " " (batch_quoted <$> cmd))) 0]))).
Proof.
  intros Hwin. unfold run_process. rewrite bind_unfold. cbn [print].
  rewrite bind_unfold, Hwin. split.
  - intros Hex. by rewrite bind_unfold, (quote_refused _ _ Hex).
  - intros Hall out err after Hexec. rewrite bind_unfold, (quote_all _ _ Hall).
    rewrite bind_unfold. cbn [print mret M_ret]. unfold try_except, subprocess_run. cbn [fs].
    rewrite Hexec. cbn. by rewrite <- (assoc_L (++)).
Qed.

Lemma write_arg_file_refuses (arg_file : string) (args : list string) (w : world) :
  Exists (λ a, Str.contains "'" a = true) args →
  ∃ e w', write_arg_file arg_file args w = (Raise e, w') ∧ procs w' = procs w.
Proof.
  intros Hex. destruct (quiet_write_arg_file arg_file args w) as [Hp Hx].
  destruct (write_arg_file arg_file args w) as [[[]|e|c] w'] eqn:Hrun; simpl in *.
  - unfold write_arg_file in Hrun. apply bind_ok_inv in Hrun as ([] & w1 & Hopen & Hloop).
    destruct (first_quote args) as [Hall|(pre & bad & post & -> & Hpre & Hbad)].
    + apply Exists_exists in Hex as (a & Hin & Ha). rewrite Forall_forall in Hall.
      by rewrite (Hall a Hin) in Ha.
    + pose proof (write_arg_file_quoted _ _ post _ _ _ Hopen Hpre Hbad) as Hq.
      unfold write_arg_file in Hq. rewrite (bind_ok _ _ _ _ _ Hopen) in Hq. congruence.
  - eauto.
  - by destruct (Hx c).
Qed.

(** X11: a source whose path holds a single quote stops the compile step
    while the arguments of the Kotlin compiler are written: it raises and no
    compiler is started. *)
Theorem quoted_source_aborts (kotlinc build_dir : string) (srcs : list string)
    (version : Version) (classpath java_classpath output : string) (w : world) :
  Exists (λ s, Str.contains "'" s = true) srcs →
  ∃ e w', compile_to_dir kotlinc build_dir srcs version classpath java_classpath output w
          = (Raise e, w') ∧ procs w' = procs w.
Proof.
  intros Hex. unfold compile_to_dir. cbv zeta.
  edestruct (write_arg_file_refuses (build_dir +:+ "/kotlin.args")) as (e & w' & Hrun & Hp);
    [|rewrite (bind_raise _ _ _ _ _ Hrun); eauto].
  apply Exists_app. by right.
Qed.

End Children.

(** ** The scratch tree again *)

Section ScratchAgain.
Context `{!Platform, !PluginVersions}.


(** X12: when the compile step returns, nothing is left of its scratch
    tree nor of its class directory. *)
Theorem compile_cleans_up (kotlinc : string) (jars java_jars : list string)
    (dependency_folder : string) (transform : list string → M unit)
    (output build_dir version_str : string) (w w' : world) :
  compile kotlinc jars java_jars dependency_folder transform output build_dir version_str w
  = (Ok tt, w') →
  (∀ p, parse_path (build_dir +:+ "/temp_src") `prefix_of` p → fs w' !! p = None) ∧
  (∀ p, parse_path (build_dir +:+ "/classes") `prefix_of` p → fs w' !! p = None).
Proof.
  intros Hrun. unfold compile in Hrun.
  apply bind_ok_inv in Hrun as (classpath & w1 & _ & Hrun).
  apply bind_ok_inv in Hrun as (java_classpath & w2 & _ & Hrun).
  apply bind_ok_inv in Hrun as ([tmp version] & w3 & Hsrc & Hrun).
  apply bind_ok_inv in Hrun as (srcs & w4 & _ & Hrun).
  apply bind_ok_inv in Hrun as ([] & w5 & _ & Hrun).
  apply bind_ok_inv in Hrun as ([] & w6 & Hjar & Hrm).
  apply compile_sources_scratch in Hsrc as ->.
  apply rmtree_ok in Hrm as [_ ->].
  unfold compile_to_jar in Hjar. cbv zeta in Hjar.
  repeat (apply bind_ok_inv in Hjar as (? & ? & _ & Hjar)).
  apply rmtree_ok in Hjar as [_ ->]. cbn [fs set_fs]. split.
  - intros p Hp. by rewrite lookup_remove_tree, decide_True.
  - intros p Hp. rewrite lookup_remove_tree. case_decide; [done|].
    by rewrite lookup_remove_tree, decide_True.
Qed.

(** X13: without a source tree the compile step raises
    [FileNotFoundError] for it; by then it has at most removed an old scratch
    tree. *)
Theorem missing_sources (output build_dir version_str : string) (w : world) :
  fs w !! ["src"] = None →
  is_file (fs w !! parse_path (build_dir +:+ "/temp_src")) = false →
  ∃ w', compile_sources output build_dir version_str w = (Raise (FileNotFoundError "src"), w') ∧
        procs w' = procs w ∧
        ∀ p, ¬ parse_path (build_dir +:+ "/temp_src") `prefix_of` p → fs w' !! p = fs w !! p.
Proof.
  intros Hsrc Hfile. unfold compile_sources. cbv zeta.
  set (tmp := build_dir +:+ "/temp_src") in *.
  assert (parse_path tmp ≠ []) as HT.
  { unfold tmp. rewrite parse_scratch. by destruct (parse_path build_dir). }
  assert (¬ parse_path tmp `prefix_of` ["src"]) as Hapart.
  { unfold tmp. rewrite parse_scratch. intros Hp.
    destruct (parse_path build_dir) as [|x [|y q]]; simpl in Hp.
    - apply prefix_cons_inv_1 in Hp. discriminate Hp.
    - apply prefix_cons_inv_2, prefix_nil_inv in Hp. discriminate Hp.
    - apply prefix_cons_inv_2, prefix_nil_inv in Hp. discriminate Hp. }
  rewrite bind_unfold. unfold os_path_exists. rewrite node_at_lookup by done.
  destruct (fs w !! parse_path tmp) as [[c|]|] eqn:Htmp; [done|..].
  - rewrite bool_decide_eq_true_2 by eauto. rewrite bind_unfold.
    unfold shutil_rmtree. rewrite node_at_lookup, Htmp by done.
    rewrite bind_unfold. unfold shutil_copytree.
    change (parse_path "src") with ["src"]. cbn [node_at fs set_fs].
    rewrite lookup_remove_tree, decide_False, Hsrc by done.
    eexists. split; [done|]. split; [done|]. intros p Hp. cbn [fs set_fs].
    by rewrite lookup_remove_tree, decide_False.
  - rewrite bool_decide_eq_false_2 by (by intros [? ?]). rewrite bind_unfold.
    cbn [mret M_ret]. rewrite bind_unfold. unfold shutil_copytree.
    change (parse_path "src") with ["src"]. cbn [node_at]. rewrite Hsrc. eauto.
Qed.

(** X14: the compile step gets through the preparation of its scratch tree
    only when the source tree is a directory with a folder of overrides and
    without a folder of the current version and without the folder of the
    marker. *)
Theorem sources_layout_needed (output build_dir version_str tmp : string)
    (version : Version) (w w' : world) :
  well_formed (fs w) →
  compile_sources output build_dir version_str w = (Ok (tmp, version), w') →
  fs w !! ["src"] = Some Dir ∧
  fs w !! ("src" :: versions_rel) = Some Dir ∧
  fs w !! ("src" :: this_version_rel) = None ∧
  fs w !! ("src" :: resource_rel) = None.
Proof.
  intros Hwf Hrun. unfold compile_sources in Hrun. cbv zeta in Hrun.
  apply bind_ok_inv in Hrun as (b & w0 & Hex & Hrun).
  apply bind_ok_inv in Hrun as ([] & w1 & Hrm & Hrun).
  apply bind_ok_inv in Hrun as ([] & w2 & Hcp & Hrun).
  apply bind_ok_inv in Hrun as ([] & w3 & Hmk1 & Hrun).
  apply bind_ok_inv in Hrun as ([] & w4 & Hmk2 & Hrun).
  apply bind_ok_inv in Hrun as ([] & w5 & Hop & Hrun).
  apply bind_ok_inv in Hrun as ([] & w6 & Hwr & Hrun).
  apply bind_ok_inv in Hrun as (v & w7 & Hv & Hrun).
  apply bind_ok_inv in Hrun as ([] & w8 & Hloop & Hrun).
  apply bind_ok_inv in Hrun as ([] & w9 & Hrm2 & Hrun).
  injection Hrun as <- -> <-.
  destruct (version_string_to_version version_str) as [e|v'] eqn:Hparse; [done|].
  injection Hv as -> <-.
  set (tmp := build_dir +:+ "/temp_src") in *. set (T := parse_path tmp).
  assert (T ≠ []) as HT.
  { unfold T, tmp. rewrite parse_scratch. by destruct (parse_path build_dir). }
  destruct (scratch_copied _ _ _ _ _ _ Hwf HT Hex Hrm Hcp) as (Hsrc & _ & Hcopy).
  destruct (scratch_prepared _ _ _ _ _ _ _ _ Hwf Hcopy Hmk1 Hmk2 Hop Hwr)
    as (Hver & Hempty & _).
  destruct (overlay_rounds tmp version (fs w) _ _ _ Hver Hloop) as (Hver' & _).
  fold T in Hcopy, Hver'.
  assert (T ++ versions_rel ≠ []) as Hne0 by (unfold versions_rel; by destruct T).
  assert (T ++ this_version_rel ≠ []) as Hne1 by (unfold this_version_rel; by destruct T).
  assert (T ++ resource_rel ≠ []) as Hne2 by (unfold resource_rel; by destruct T).
  apply rmtree_ok in Hrm2 as [Hdir _]. rewrite parse_versions in Hdir. fold T in Hdir.
  rewrite node_at_lookup in Hdir by done.
  specialize (Hver' []). rewrite !(right_id_L [] (++)) in Hver'.
  apply makedirs_ok in Hmk1 as (-> & Hnf1 & Hnd1). rewrite parse_this_version in *.
  apply makedirs_ok in Hmk2 as (_ & Hnf2 & Hnd2). rewrite parse_resource in *.
  fold T in Hnf1, Hnd1, Hnf2, Hnd2. specialize (Hnd1 eq_refl). specialize (Hnd2 eq_refl).
  rewrite node_at_lookup in Hnd1, Hnd2 by done. cbn [fs set_fs] in *.
  split; [done|]. split; [by rewrite <- Hver'|]. split.
  - rewrite <- Hcopy by done. apply not_dir_not_file; [done|]. by apply Hnf1.
  - rewrite <- Hcopy by done.
    assert (add_dirs (T ++ this_version_rel) (fs w2) !! (T ++ resource_rel) = None) as Hn
      by (apply not_dir_not_file; [done|]; by apply Hnf2).
    rewrite lookup_add_dirs in Hn. by destruct (fs w2 !! (T ++ resource_rel)).
Qed.



Lemma quiet_cases {A} (m : M A) (w : world) :
  quiet m →
  (∃ a w1, m w = (Ok a, w1) ∧ procs w1 = procs w) ∨
  (∃ e w1, m w = (Raise e, w1) ∧ procs w1 = procs w).
Proof.
  intros Hq. destruct (Hq w) as [Hp Hx].
  destruct (m w) as [[a|e|c] w1]; simpl in *; [left|right|by destruct (Hx c)]; eauto.
Qed.

Lemma compile_sources_version (output build_dir version_str tmp : string)
    (version : Version) (w w' : world) :
  compile_sources output build_dir version_str w = (Ok (tmp, version), w') →
  version_string_to_version version_str = inr version.
Proof.
  intros Hrun. unfold compile_sources in Hrun. cbv zeta in Hrun.
  do 7 (apply bind_ok_inv in Hrun as (? & ? & _ & Hrun)).
  apply bind_ok_inv in Hrun as (v & w7 & Hv & Hrun).
  do 2 (apply bind_ok_inv in Hrun as (? & ? & _ & Hrun)).
  destruct (version_string_to_version version_str) as [e|v']; [done|].
  injection Hrun as _ <- _. by injection Hv as ->.
Qed.

(** X16: a version string the registry does not know stops the compile
    step before any compiler is started: the step raises, whatever else is
    wrong or right with the files. *)
Theorem unknown_version_stops (kotlinc : string) (jars java_jars : list string)
    (dependency_folder : string) (transform : list string → M unit)
    (output build_dir version_str : string) (e : exn) (w : world) :
  version_string_to_version version_str = inl e →
  ∃ e' w', compile kotlinc jars java_jars dependency_folder transform output build_dir
             version_str w = (Raise e', w') ∧
           procs w' = procs w.
Proof.
  intros Hv. unfold compile.
  destruct (quiet_cases _ w (quiet_bases_to_classpath dependency_folder jars))
    as [(cp & w1 & H1 & Hp1)|(e1 & w1 & H1 & Hp1)];
    [|rewrite (bind_raise _ _ _ _ _ H1); eauto].
  rewrite (bind_ok _ _ _ _ _ H1).
  destruct (quiet_cases _ w1 (quiet_bases_to_classpath dependency_folder java_jars))
    as [(jcp & w2 & H2 & Hp2)|(e2 & w2 & H2 & Hp2)];
    [|rewrite (bind_raise _ _ _ _ _ H2); exists e2, w2; split; [done|congruence]].
  rewrite (bind_ok _ _ _ _ _ H2).
  destruct (quiet_cases _ w2 (quiet_compile_sources output build_dir version_str))
    as [([tmp version] & w3 & H3 & Hp3)|(e3 & w3 & H3 & Hp3)].
  - apply compile_sources_version in H3. congruence.
  - rewrite (bind_raise _ _ _ _ _ H3). exists e3, w3. split; [done|congruence].
Qed.

End ScratchAgain.

(** ** What a build leaves alone *)

Section Frame.
Context `{!Platform, !PluginVersions}.
Implicit Types (k d : list string).









































End Frame.

(** ** The properties on the small installations *)

Lemma classpath_of_bases_witness :
  (Forall (λ base, jar_present (fs Demo.start) "deps" base = true) Cases.compiler_jars ∧
   @bases_to_classpath (Demo.platform true 0) "deps" Cases.compiler_jars Demo.start
   = (Ok (Str.join (@os_pathsep (Demo.platform true 0))
            ((λ base, "deps" +:+ "/" +:+ base +:+ ".jar") <$> Cases.compiler_jars)),
      Demo.start)) ∧
  (Cases.old_jars = ["kotlin-stdlib-1.5.0"] ++ "kotlin-stdlib-1.4.20" :: [] ∧
   Forall (λ base, jar_present (fs Demo.start) "deps" base = true) ["kotlin-stdlib-1.5.0"] ∧
   jar_present (fs Demo.start) "deps" "kotlin-stdlib-1.4.20" = false ∧
   @bases_to_classpath (Demo.platform true 0) "deps" Cases.old_jars Demo.start
   = (Raise (Exception ("Cannot find jar file at " +:+ "deps" +:+ "/" +:+
                        "kotlin-stdlib-1.4.20" +:+ ".jar")), Demo.start)).
Proof.
  assert (Forall (λ base, jar_present (fs Demo.start) "deps" base = true) Cases.compiler_jars)
    as H1 by (repeat (apply Forall_cons_2; [vm_compute; reflexivity|]); apply Forall_nil_2).
  assert (Forall (λ base, jar_present (fs Demo.start) "deps" base = true)
            ["kotlin-stdlib-1.5.0"])
    as H2 by (repeat (apply Forall_cons_2; [vm_compute; reflexivity|]); apply Forall_nil_2).
  assert (jar_present (fs Demo.start) "deps" "kotlin-stdlib-1.4.20" = false) as H3
    by (vm_compute; reflexivity).
  split.
  - split; [exact H1|].
    exact (proj1 (@classpath_of_bases (Demo.platform true 0) "deps" _ Demo.start) H1).
  - split; [reflexivity|]. split; [exact H2|]. split; [exact H3|].
    exact (proj2 (@classpath_of_bases (Demo.platform true 0) "deps" Cases.old_jars Demo.start)
             ["kotlin-stdlib-1.5.0"] "kotlin-stdlib-1.4.20" [] eq_refl H2 H3).
Defined.

Lemma missing_dependency_aborts_witness :
  Exists (λ base, jar_present (fs Demo.start) "deps" base = false) (Cases.old_jars ++ []) ∧
  ∃ base, base ∈ Cases.old_jars ++ [] ∧
    jar_present (fs Demo.start) "deps" base = false ∧
    @compile (Demo.platform true 0) Demo.registry "/usr/bin/kotlinc" Cases.old_jars [] "deps"
      (λ _, mret tt) "out.jar" "build" "1.5.0" Demo.start
    = (Raise (Exception ("Cannot find jar file at " +:+ jar_path "deps" base)), Demo.start).
Proof.
  assert (Exists (λ base, jar_present (fs Demo.start) "deps" base = false)
            (Cases.old_jars ++ [])) as H1
    by (apply Exists_cons_tl, Exists_cons_hd; vm_compute; reflexivity).
  split; [exact H1|]. exact (missing_dependency_aborts _ _ _ _ _ _ _ _ _ H1).
Defined.

Lemma many_archives_in_order_witness :
  truthy (single_version (Demo.arguments true None false)) = None ∧
  many (Demo.arguments true None false) = true ∧
  ∃ evs,
    procs (@main (Demo.platform true 1) Demo.registry
             (Demo.arguments true None false) Demo.start).2 = procs Demo.start ++ evs ∧
    archives evs `prefix_of`
      concat ((λ version, [standalone_jar version; embeddable_jar version])
              <$> @many_versions Demo.registry).
Proof.
  split; [reflexivity|]. split; [reflexivity|].
  exact (@many_archives_in_order (Demo.platform true 1) Demo.registry
           (Demo.arguments true None false) Demo.start eq_refl eq_refl).
Defined.

Lemma exits_only_early_witness :
  @main (Demo.platform false 0) Demo.registry (Demo.arguments true None false) Demo.start
  = (Exit 1, complained no_kotlinc_message Demo.start) ∧
  (1 = 1 ∧
   ((@shutil_which (Demo.platform false 0) "kotlinc" = None ∧
     complained no_kotlinc_message Demo.start = complained no_kotlinc_message Demo.start) ∨
    (is_Some (@shutil_which (Demo.platform false 0) "kotlinc") ∧
     single_version_embeddable (Demo.arguments true None false) = true ∧
     truthy (single_version (Demo.arguments true None false)) = None ∧
     complained no_kotlinc_message Demo.start = complained usage_message Demo.start))).
Proof.
  assert (@main (Demo.platform false 0) Demo.registry (Demo.arguments true None false)
            Demo.start = (Exit 1, complained no_kotlinc_message Demo.start)) as H1
    by reflexivity.
  split; [exact H1|]. exact (exits_only_early _ _ _ _ H1).
Defined.

Lemma default_build_witness :
  @shutil_which (Demo.platform true 0) "kotlinc" = Some "/usr/bin/kotlinc" ∧
  truthy (single_version (Demo.arguments false None false)) = None ∧
  single_version_embeddable (Demo.arguments false None false) = false ∧
  many (Demo.arguments false None false) = false ∧
  @main (Demo.platform true 0) Demo.registry (Demo.arguments false None false) Demo.start
  = (Ok tt, (@main (Demo.platform true 0) Demo.registry (Demo.arguments false None false)
               Demo.start).2) ∧
  ∃ version evs,
    @get_single_version Demo.registry (fs Demo.start) = inr version ∧
    procs (@main (Demo.platform true 0) Demo.registry (Demo.arguments false None false)
             Demo.start).2 = procs Demo.start ++ evs ∧
    ev_argv <$> evs
    = target_plan "/usr/bin/kotlinc" false version ∧
    Forall succeeded evs ∧
    archives evs = [standalone_jar version].
Proof.
  assert (@main (Demo.platform true 0) Demo.registry (Demo.arguments false None false)
            Demo.start
          = (Ok tt, (@main (Demo.platform true 0) Demo.registry
                       (Demo.arguments false None false) Demo.start).2)) as Hrun
    by (apply outcome_eta; vm_compute; reflexivity).
  split; [reflexivity|]. split; [reflexivity|]. split; [reflexivity|]. split; [reflexivity|].
  split; [exact Hrun|].
  exact (@default_build (Demo.platform true 0) Demo.registry
           (Demo.arguments false None false) Demo.start _ "/usr/bin/kotlinc"
           eq_refl eq_refl eq_refl eq_refl Hrun).
Defined.

Lemma archive_names_distinct_witness :
  standalone_jar "1.5.0" = standalone_jar "1.5.0" ∧ "1.5.0" = "1.5.0" ∧
  standalone_jar "1.5.0" ≠ embeddable_jar "1.5.0".
Proof.
  split; [reflexivity|].
  split; [exact (proj1 archive_names_distinct "1.5.0" "1.5.0" eq_refl)|].
  exact (proj1 (proj2 (proj2 archive_names_distinct)) "1.5.0" "1.5.0").
Defined.

Lemma transform_idempotent_witness :
  @transform_to_embeddable (Demo.platform true 0) ["src/main/java/X.java"] Demo.start
  = (Ok tt, (@transform_to_embeddable (Demo.platform true 0) ["src/main/java/X.java"]
               Demo.start).2) ∧
  "src/main/java/X.java" ∈ ["src/main/java/X.java"] ∧
  fs Demo.start !! parse_path "src/main/java/X.java" = Some (File "class X {}") ∧
  Str.contains "import com.intellij" (read_newlines "class X {}") = false ∧
  @platform_system (Demo.platform true 0) ≠ "Windows" ∧
  Str.contains (String cr "") "class X {}" = false ∧
  fs (@transform_to_embeddable (Demo.platform true 0) ["src/main/java/X.java"] Demo.start).2
    !! parse_path "src/main/java/X.java" = Some (File "class X {}").
Proof.
  assert (@transform_to_embeddable (Demo.platform true 0) ["src/main/java/X.java"] Demo.start
          = (Ok tt, (@transform_to_embeddable (Demo.platform true 0)
                       ["src/main/java/X.java"] Demo.start).2))
    as H1 by (apply outcome_eta; vm_compute; reflexivity).
  assert ("src/main/java/X.java" ∈ ["src/main/java/X.java"]) as H2 by apply list_elem_of_here.
  assert (fs Demo.start !! parse_path "src/main/java/X.java" = Some (File "class X {}"))
    as H3 by (vm_compute; reflexivity).
  assert (Str.contains "import com.intellij" (read_newlines "class X {}") = false) as H4
    by reflexivity.
  assert (@platform_system (Demo.platform true 0) ≠ "Windows") as H5
    by (intros Heq; discriminate Heq).
  assert (Str.contains (String cr "") "class X {}" = false) as H6 by reflexivity.
  split; [exact H1|]. split; [exact H2|]. split; [exact H3|]. split; [exact H4|].
  split; [exact H5|]. split; [exact H6|].
  exact (proj2 (proj1 (@transform_idempotent (Demo.platform true 0) _ _ _ H1)
                  _ _ H2 H3 H4) H5 H6).
Defined.

Lemma arg_file_lines_witness :
  open_w Demo.arg_file Demo.start = (Ok tt, (open_w Demo.arg_file Demo.start).2) ∧
  Forall (λ a, Str.contains "'" a = false ∧ Str.contains Str.nl a = false) ["-d"; "C:\out"] ∧
  ∃ content,
    fs (@write_arg_file (Demo.platform true 0) Demo.arg_file ["-d"; "C:\out"] Demo.start).2
      !! parse_path Demo.arg_file = Some (File content) ∧
    str_count (ascii_of_nat 10) content = length ["-d"; "C:\out"].
Proof.
  assert (open_w Demo.arg_file Demo.start = (Ok tt, (open_w Demo.arg_file Demo.start).2))
    as H1 by (apply outcome_eta; vm_compute; reflexivity).
  assert (Forall (λ a, Str.contains "'" a = false ∧ Str.contains Str.nl a = false)
            ["-d"; "C:\out"]) as H2 by (repeat constructor).
  split; [exact H1|]. split; [exact H2|]. exact (@arg_file_lines (Demo.platform true 0) _ _ _ _ H1 H2).
Defined.

Lemma run_process_elsewhere_witness :
  @is_windows (Demo.platform true 0) = false ∧
  @os_exec (Demo.platform true 0) (Argv Cases.javac_command) (fs Demo.start)
  = Exited 0 "" "" (fs Demo.start) ∧
  @run_process (Demo.platform true 0) Cases.javac_command false Demo.start
  = (Ok tt,
     World (fs Demo.start)
       (stdout Demo.start ++ ["Running command: " +:+ shlex_join Cases.javac_command])
       (stderr Demo.start)
       (procs Demo.start ++ [Event Cases.javac_command (Argv Cases.javac_command) 0])).
Proof.
  split; [reflexivity|]. split; [reflexivity|].
  exact (proj2 (@run_process_elsewhere (Demo.platform true 0) Cases.javac_command false
                  Demo.start eq_refl) _ _ _ eq_refl).
Defined.

Lemma run_process_windows_witness :
  @is_windows Cases.windows = true ∧
  Forall (λ a, batch_refused a = false) Cases.javac_command ∧
  @os_exec Cases.windows (Shell (Str.join " " (batch_quoted <$> Cases.javac_command)))
    (fs Cases.bare) = Exited 0 "" "" (fs Cases.bare) ∧
  Str.join " " (batch_quoted <$> Cases.javac_command)
  = "javac -d out -cp " +:+ Str.dquote +:+ "a.jar;b.jar" +:+ Str.dquote ∧
  @run_process Cases.windows Cases.javac_command false Cases.bare
  = (Ok tt,
     World (fs Cases.bare)
       (stdout Cases.bare ++ ["Running command: " +:+ shlex_join Cases.javac_command] ++
        ["Converted to Windows command: "
         +:+ Str.join " " (batch_quoted <$> Cases.javac_command)])
       (stderr Cases.bare)
       (procs Cases.bare
        ++ [Event Cases.javac_command
              (Shell (Str.join " " (batch_quoted <$> Cases.javac_command))) 0])).
Proof.
  assert (Forall (λ a, batch_refused a = false) Cases.javac_command) as H1
    by (repeat constructor).
  split; [reflexivity|]. split; [exact H1|]. split; [reflexivity|]. split; [reflexivity|].
  exact (proj2 (@run_process_windows Cases.windows Cases.javac_command false Cases.bare
                  eq_refl) H1 _ _ _ eq_refl).
Defined.

Lemma quoted_source_aborts_witness :
  Exists (λ s, Str.contains "'" s = true) ["Main.kt"; "it's.kt"] ∧
  ∃ e w',
    @compile_to_dir (Demo.platform true 0) Demo.registry "/usr/bin/kotlinc" "deps"
      ["Main.kt"; "it's.kt"] 1%nat "" "" "deps/classes" Demo.start = (Raise e, w') ∧
    procs w' = procs Demo.start.
Proof.
  assert (Exists (λ s, Str.contains "'" s = true) ["Main.kt"; "it's.kt"]) as H1
    by (apply Exists_cons_tl, Exists_cons_hd; reflexivity).
  split; [exact H1|].
  exact (@quoted_source_aborts (Demo.platform true 0) Demo.registry _ _ _ _ _ _ _ _ H1).
Defined.

Lemma compile_cleans_up_witness :
  @compile (Demo.platform true 0) Demo.registry "/usr/bin/kotlinc" Cases.compiler_jars []
    "deps" (λ _, mret tt) "out.jar" "build" "1.5.0" Demo.start
  = (Ok tt, (@compile (Demo.platform true 0) Demo.registry "/usr/bin/kotlinc"
               Cases.compiler_jars [] "deps" (λ _, mret tt) "out.jar" "build" "1.5.0"
               Demo.start).2) ∧
  ∀ p, parse_path ("build" +:+ "/temp_src") `prefix_of` p →
    fs (@compile (Demo.platform true 0) Demo.registry "/usr/bin/kotlinc"
          Cases.compiler_jars [] "deps" (λ _, mret tt) "out.jar" "build" "1.5.0"
          Demo.start).2 !! p = None.
Proof.
  assert (@compile (Demo.platform true 0) Demo.registry "/usr/bin/kotlinc"
            Cases.compiler_jars [] "deps" (λ _, mret tt) "out.jar" "build" "1.5.0" Demo.start
          = (Ok tt, (@compile (Demo.platform true 0) Demo.registry "/usr/bin/kotlinc"
                       Cases.compiler_jars [] "deps" (λ _, mret tt) "out.jar" "build"
                       "1.5.0" Demo.start).2)) as H1
    by (apply outcome_eta; vm_compute; reflexivity).
  split; [exact H1|]. exact (proj1 (compile_cleans_up _ _ _ _ _ _ _ _ _ _ H1)).
Defined.

Lemma missing_sources_witness :
  fs Cases.bare !! ["src"] = None ∧
  is_file (fs Cases.bare !! parse_path ("build" +:+ "/temp_src")) = false ∧
  ∃ w', @compile_sources (Demo.platform true 0) Demo.registry "out.jar" "build" "1.5.0" Cases.bare
        = (Raise (FileNotFoundError "src"), w') ∧
        procs w' = procs Cases.bare ∧
        ∀ p, ¬ parse_path ("build" +:+ "/temp_src") `prefix_of` p →
             fs w' !! p = fs Cases.bare !! p.
Proof.
  assert (fs Cases.bare !! ["src"] = None) as H1 by (vm_compute; reflexivity).
  assert (is_file (fs Cases.bare !! parse_path ("build" +:+ "/temp_src")) = false) as H2
    by (vm_compute; reflexivity).
  split; [exact H1|]. split; [exact H2|].
  exact (@missing_sources (Demo.platform true 0) Demo.registry "out.jar" "build" "1.5.0" Cases.bare H1 H2).
Defined.

Lemma sources_layout_needed_witness :
  well_formed (fs Demo.start) ∧
  @compile_sources (Demo.platform true 0) Demo.registry "out.jar" "build" "1.5.0" Demo.start
  = (Ok ("build/temp_src", 1%nat),
     (@compile_sources (Demo.platform true 0) Demo.registry "out.jar" "build" "1.5.0" Demo.start).2) ∧
  fs Demo.start !! ["src"] = Some Dir ∧
  fs Demo.start !! ("src" :: versions_rel) = Some Dir ∧
  fs Demo.start !! ("src" :: this_version_rel) = None ∧
  fs Demo.start !! ("src" :: resource_rel) = None.
Proof.
  assert (well_formed (fs Demo.start)) as Hwf
    by (apply (bool_decide_unpack _); vm_compute; exact I).
  assert (@compile_sources (Demo.platform true 0) Demo.registry "out.jar" "build" "1.5.0" Demo.start
          = (Ok ("build/temp_src", 1%nat),
             (@compile_sources (Demo.platform true 0) Demo.registry "out.jar" "build" "1.5.0" Demo.start).2)) as Hrun
    by (apply outcome_eta; vm_compute; reflexivity).
  split; [exact Hwf|]. split; [exact Hrun|].
  exact (@sources_layout_needed (Demo.platform true 0) Demo.registry _ _ _ _ _ _ _ Hwf Hrun).
Defined.


Lemma unknown_version_stops_witness :
  @version_string_to_version Demo.registry "2.0.0" = inl (Exception "unknown version") ∧
  ∃ e' w',
    @compile (Demo.platform true 0) Demo.registry "/usr/bin/kotlinc" Cases.compiler_jars []
      "deps" (λ _, mret tt) "out.jar" "build" "2.0.0" Demo.start = (Raise e', w') ∧
    procs w' = procs Demo.start.
Proof.
  assert (@version_string_to_version Demo.registry "2.0.0"
          = inl (Exception "unknown version")) as H1 by (vm_compute; reflexivity).
  split; [exact H1|].
  exact (@unknown_version_stops (Demo.platform true 0) Demo.registry _ _ _ _ _ _ _ _ _ _ H1).
Defined.


